(** * foxess_em: the charge service

    A shallow embedding of [custom_components/foxess_em/charge/charge_service.py]
    (class [ChargeService]) together with the part of its collaborators that
    the service touches: the Home Assistant listener registry, the forecast
    and battery controllers, and the Fox cloud service.

    The Python object graph is threaded explicitly as one [world] value; the
    coroutines of the class become computations in a small state-and-exception
    monad [M].  An exception raised by a collaborator keeps every mutation
    made before it, exactly as in Python. *)

From Stdlib Require Import ZArith QArith String List Lia Bool DecimalString.
From Stdlib Require Import DecimalPos DecimalZ.
From stdpp Require Import base list strings.

Set Default Proof Using "Type".

(** ** Python values *)

(** A Python number: the battery controller hands out [float]s (or [int]s),
    the configuration holds [int]s.  A finite float is a rational, so [Q] is
    exact for the comparisons and the truncation the service performs. *)
Inductive number : Type :=
| PyInt (z : Z)
| PyFloat (q : Q).

Definition to_Q (x : number) : Q :=
  match x with
  | PyInt z => inject_Z z
  | PyFloat q => q
  end.

(** [x > y] *)
Definition py_gt (x y : number) : bool := negb (Qle_bool (to_Q x) (to_Q y)).

(** [int(x)]: truncation toward zero. *)
Definition py_int (x : number) : Z :=
  match x with
  | PyInt z => z
  | PyFloat q => Z.quot (Qnum q) (Zpos (Qden q))
  end.

(** The spec's [round(x)], written from its words (the nearest integer, a tie
    going to the even neighbour as Python's [round] does), to be compared
    with the [int(x)] of the source. *)
Definition spec_round (x : number) : Z :=
  match x with
  | PyInt z => z
  | PyFloat q =>
      let n := Qnum q in
      let d := Zpos (Qden q) in
      match (2 * (n mod d) ?= d)%Z with
      | Lt => (n / d)%Z
      | Gt => (n / d + 1)%Z
      | Eq => if Z.even (n / d) then (n / d)%Z else (n / d + 1)%Z
      end
  end.

(** [str(n)] for an [int]: its decimal numeral. *)
Definition py_str (n : Z) : string := NilZero.string_of_int (Z.to_int n).

(** [x * 100] on [int]s. *)
Definition py_mul100 (n : Z) : number := PyInt (n * 100)%Z.

Definition in_range (lo hi x : Z) : bool := (lo <=? x)%Z && (x <=? hi)%Z.

(** [datetime.time], of which the service reads [hour] and [minute].  Its
    constructor refuses a field out of range, so a value of the type has an
    hour below 24 and a minute below 60. *)
Record time : Type := {
  hour : Z;
  minute : Z;
  hour_in_range : in_range 0 23 hour = true;
  minute_in_range : in_range 0 59 minute = true
}.

Definition valid_time (t : time) : Prop :=
  (0 <= hour t < 24)%Z ∧ (0 <= minute t < 60)%Z.

(** ** The collaborators *)

(** The four bound methods the service hands to Home Assistant. *)
Inductive callback : Type :=
| cb_set_target_soc
| cb_stop_hold
| cb_start_force_charge
| cb_stop_and_hold_charge.

#[global] Instance callback_eq_dec : EqDecision callback.
Proof. solve_decision. Defined.

(** What a registration in [homeassistant.helpers.event] tracks.  Every time
    registration of the service passes [local=True]; [None] as a state is
    Home Assistant's match-all. *)
Inductive track : Type :=
| utc_time_change (action : callback) (h m s : Z)
| state_change (entity_id : string) (action : callback)
    (from_state to_state : option string).

Definition action_of (t : track) : callback :=
  match t with
  | utc_time_change a _ _ _ => a
  | state_change _ a _ _ => a
  end.

(** One entry of the registry.  The handle returned to the caller is the
    entry's index; [unsubscribed] counts how often the handle was called. *)
Record listener : Type := { tracked : track; unsubscribed : nat }.

Definition live (l : listener) : bool := Nat.eqb (unsubscribed l) 0.

Definition unsubscribe (l : listener) : listener :=
  {| tracked := tracked l; unsubscribed := S (unsubscribed l) |}.

(** The operations of [FoxCloudService] the service awaits. *)
Inductive fox_call : Type :=
| start_force_charge
| stop_force_charge
| set_min_soc (soc : number).

(** What the battery controller answers after a forecast refresh. *)
Record readings : Type := {
  battery_capacity_remaining : number;
  charge_total : number;
  charge_to_perc : number
}.

(** The part the outside world decides: the outcome of the [k]-th forecast
    refresh ([None]: it raises) and whether the [k]-th Fox call raises. *)
Record environment : Type := {
  forecast : nat → option readings;
  fox_fault : nat → bool
}.

(** The constructor arguments that are stored and never assigned again. *)
Record config : Type := {
  _eco_start_time : time;
  _eco_end_time : time;
  _battery_soc : string;
  _original_soc : Z
}.

(** ** The state *)

Record world : Type := {
  (* ChargeService *)
  _cancel_listeners : list nat;
  _unload_listeners : list nat;
  _charge_active : bool;
  _perc_target : number;
  (* HomeAssistant: registry and wall clock, in minutes *)
  listeners : list listener;
  now : Z;
  (* BatteryController and ForecastController *)
  battery : readings;
  boost : bool;
  full : bool;
  refreshes : nat;
  (* FoxCloudService: the calls made so far *)
  fox_calls : list fox_call;
  (* the callbacks Home Assistant has invoked so far *)
  invoked : list callback
}.

Definition with_cancel_listeners (x : list nat) (w : world) : world :=
  {| _cancel_listeners := x; _unload_listeners := _unload_listeners w;
     _charge_active := _charge_active w; _perc_target := _perc_target w;
     listeners := listeners w; now := now w; battery := battery w;
     boost := boost w; full := full w; refreshes := refreshes w;
     fox_calls := fox_calls w; invoked := invoked w |}.

Definition with_unload_listeners (x : list nat) (w : world) : world :=
  {| _cancel_listeners := _cancel_listeners w; _unload_listeners := x;
     _charge_active := _charge_active w; _perc_target := _perc_target w;
     listeners := listeners w; now := now w; battery := battery w;
     boost := boost w; full := full w; refreshes := refreshes w;
     fox_calls := fox_calls w; invoked := invoked w |}.

Definition with_charge_active (x : bool) (w : world) : world :=
  {| _cancel_listeners := _cancel_listeners w;
     _unload_listeners := _unload_listeners w;
     _charge_active := x; _perc_target := _perc_target w;
     listeners := listeners w; now := now w; battery := battery w;
     boost := boost w; full := full w; refreshes := refreshes w;
     fox_calls := fox_calls w; invoked := invoked w |}.

Definition with_perc_target (x : number) (w : world) : world :=
  {| _cancel_listeners := _cancel_listeners w;
     _unload_listeners := _unload_listeners w;
     _charge_active := _charge_active w; _perc_target := x;
     listeners := listeners w; now := now w; battery := battery w;
     boost := boost w; full := full w; refreshes := refreshes w;
     fox_calls := fox_calls w; invoked := invoked w |}.

Definition with_listeners (x : list listener) (w : world) : world :=
  {| _cancel_listeners := _cancel_listeners w;
     _unload_listeners := _unload_listeners w;
     _charge_active := _charge_active w; _perc_target := _perc_target w;
     listeners := x; now := now w; battery := battery w;
     boost := boost w; full := full w; refreshes := refreshes w;
     fox_calls := fox_calls w; invoked := invoked w |}.

Definition with_now (x : Z) (w : world) : world :=
  {| _cancel_listeners := _cancel_listeners w;
     _unload_listeners := _unload_listeners w;
     _charge_active := _charge_active w; _perc_target := _perc_target w;
     listeners := listeners w; now := x; battery := battery w;
     boost := boost w; full := full w; refreshes := refreshes w;
     fox_calls := fox_calls w; invoked := invoked w |}.

Definition with_battery (x : readings) (w : world) : world :=
  {| _cancel_listeners := _cancel_listeners w;
     _unload_listeners := _unload_listeners w;
     _charge_active := _charge_active w; _perc_target := _perc_target w;
     listeners := listeners w; now := now w; battery := x;
     boost := boost w; full := full w; refreshes := S (refreshes w);
     fox_calls := fox_calls w; invoked := invoked w |}.

Definition with_refresh_failed (w : world) : world :=
  {| _cancel_listeners := _cancel_listeners w;
     _unload_listeners := _unload_listeners w;
     _charge_active := _charge_active w; _perc_target := _perc_target w;
     listeners := listeners w; now := now w; battery := battery w;
     boost := boost w; full := full w; refreshes := S (refreshes w);
     fox_calls := fox_calls w; invoked := invoked w |}.

Definition with_boost (x : bool) (w : world) : world :=
  {| _cancel_listeners := _cancel_listeners w;
     _unload_listeners := _unload_listeners w;
     _charge_active := _charge_active w; _perc_target := _perc_target w;
     listeners := listeners w; now := now w; battery := battery w;
     boost := x; full := full w; refreshes := refreshes w;
     fox_calls := fox_calls w; invoked := invoked w |}.

Definition with_full (x : bool) (w : world) : world :=
  {| _cancel_listeners := _cancel_listeners w;
     _unload_listeners := _unload_listeners w;
     _charge_active := _charge_active w; _perc_target := _perc_target w;
     listeners := listeners w; now := now w; battery := battery w;
     boost := boost w; full := x; refreshes := refreshes w;
     fox_calls := fox_calls w; invoked := invoked w |}.

Definition with_fox_calls (x : list fox_call) (w : world) : world :=
  {| _cancel_listeners := _cancel_listeners w;
     _unload_listeners := _unload_listeners w;
     _charge_active := _charge_active w; _perc_target := _perc_target w;
     listeners := listeners w; now := now w; battery := battery w;
     boost := boost w; full := full w; refreshes := refreshes w;
     fox_calls := x; invoked := invoked w |}.

Definition with_invoked (x : list callback) (w : world) : world :=
  {| _cancel_listeners := _cancel_listeners w;
     _unload_listeners := _unload_listeners w;
     _charge_active := _charge_active w; _perc_target := _perc_target w;
     listeners := listeners w; now := now w; battery := battery w;
     boost := boost w; full := full w; refreshes := refreshes w;
     fox_calls := fox_calls w; invoked := x |}.

(** ** Coroutines: state and exceptions *)

Inductive result (A : Type) : Type :=
| Ok (a : A)
| Raise.
Arguments Ok {A} a.
Arguments Raise {A}.

Definition M (A : Type) : Type := world → result A * world.

Definition ret {A} (a : A) : M A := fun w => (Ok a, w).

Definition bind {A B} (m : M A) (k : A → M B) : M B :=
  fun w =>
    match m w with
    | (Ok a, w') => k a w'
    | (Raise, w') => (Raise, w')
    end.

Definition raise {A} : M A := fun w => (Raise, w).

Definition gets {A} (f : world → A) : M A := fun w => (Ok (f w), w).
Definition modify (f : world → world) : M unit := fun w => (Ok tt, f w).

(** [for x in xs: body(x)] *)
Fixpoint for_each {A} (xs : list A) (body : A → M unit) : M unit :=
  match xs with
  | [] => ret tt
  | x :: xs' => bind (body x) (fun _ => for_each xs' body)
  end.

(** stdpp's monad notation: [x ← m; k] and [m;; k]. *)
#[global] Instance M_ret : MRet M := @ret.
#[global] Instance M_bind : MBind M := fun A B k m => bind m k.

Definition completes {A} (m : M A) (w : world) : Prop :=
  ∃ a, fst (m w) = Ok a.

Definition raises {A} (m : M A) (w : world) : Prop := fst (m w) = Raise.

Definition after {A} (m : M A) (w : world) : world := snd (m w).

(** ** Primitive operations of the collaborators *)

Definition register (t : track) : M nat :=
  fun w =>
    (Ok (length (listeners w)),
     with_listeners (listeners w ++ [{| tracked := t; unsubscribed := 0 |}]) w).

(** What [dt_util.parse_time_expression] accepts of the three fields. *)
Definition valid_pattern (h m s : Z) : bool :=
  in_range 0 59 s && in_range 0 59 m && in_range 0 23 h.

(** [async_track_utc_time_change(hass, action, hour, minute, second, local=True)]:
    Home Assistant parses the three fields first and raises [ValueError] on
    one that is out of range, registering nothing. *)
Definition async_track_utc_time_change
    (action : callback) (h m s : Z) : M nat :=
  if valid_pattern h m s then register (utc_time_change action h m s)
  else raise.

(** [async_track_state_change(hass, entity_ids, action, from_state, to_state)] *)
Definition async_track_state_change
    (entity_ids : string) (action : callback)
    (from_state to_state : option string) : M nat :=
  register (state_change entity_ids action from_state to_state).

Definition is_state (t : track) : bool :=
  match t with
  | utc_time_change _ _ _ _ => false
  | state_change _ _ _ _ => true
  end.

(** A state listener whose handle was called before. *)
Definition stale (l : listener) : bool := is_state (tracked l) && negb (live l).

(** Calling the handle [k]: [listener()].  The handle of a time listener
    cancels its timer, which may be done again.  The handle of a state
    listener removes its job from Home Assistant's index of state listeners
    and raises ([KeyError] or [ValueError]) when the job is no longer there,
    that is, when the handle was called before. *)
Definition call_handle (k : nat) : M unit :=
  fun w =>
    match listeners w !! k with
    | Some l =>
        if stale l then (Raise, w)
        else (Ok tt, with_listeners (alter unsubscribe k (listeners w)) w)
    | None => (Ok tt, w)
    end.

Definition set_boost (b : bool) : M unit := modify (with_boost b).
Definition set_full (b : bool) : M unit := modify (with_full b).

Section Service.

Variable env : environment.
Variable self : config.

(** [await self._forecast_controller.async_refresh()] *)
Definition async_refresh : M unit :=
  fun w =>
    match forecast env (refreshes w) with
    | Some r => (Ok tt, with_battery r w)
    | None => (Raise, with_refresh_failed w)
    end.

(** [await self._fox.<call>]: the call is made, then it may raise. *)
Definition fox (c : fox_call) : M unit :=
  fun w =>
    (if fox_fault env (length (fox_calls w)) then Raise else Ok tt,
     with_fox_calls (fox_calls w ++ [c]) w).

(** ** The class *)

(** [ChargeService._set_target_soc] *)
Definition _set_target_soc : M unit :=
  async_refresh;;
  current_capacity ← gets (fun w => battery_capacity_remaining (battery w));
  target_capacity ← gets (fun w => charge_total (battery w));
  perc ← gets (fun w => charge_to_perc (battery w));
  modify (with_perc_target perc);;
  (if py_gt target_capacity current_capacity then
     start_charge ← async_track_utc_time_change cb_start_force_charge
       (hour (_eco_start_time self)) (minute (_eco_start_time self)) 0;
     modify (fun w =>
       with_cancel_listeners (_cancel_listeners w ++ [start_charge]) w);;
     modify (fun w =>
       with_unload_listeners (_unload_listeners w ++ [start_charge]) w)
   else mret tt);;
  perc_target ← gets _perc_target;
  track_charge ← async_track_state_change (_battery_soc self)
    cb_stop_and_hold_charge None (Some (py_str (py_int perc_target)));
  modify (fun w =>
    with_cancel_listeners (_cancel_listeners w ++ [track_charge]) w);;
  modify (fun w =>
    with_unload_listeners (_unload_listeners w ++ [track_charge]) w).

(** [ChargeService._start_force_charge] *)
Definition _start_force_charge : M unit :=
  modify (with_charge_active true);;
  fox start_force_charge.

(** [ChargeService._stop_and_hold_charge] *)
Definition _stop_and_hold_charge : M unit :=
  charge_active ← gets _charge_active;
  (if (charge_active : bool) then
     modify (with_charge_active false);;
     fox stop_force_charge
   else mret tt);;
  perc_target ← gets _perc_target;
  fox (set_min_soc perc_target);;
  set_boost false;;
  set_full false.

(** [ChargeService._stop_hold] *)
Definition _stop_hold : M unit :=
  cancel_listeners ← gets _cancel_listeners;
  for_each cancel_listeners call_handle;;
  fox (set_min_soc (py_mul100 (_original_soc self))).

(** Modelled from the spec: [UnloadController.__init__] of
    [common/unload_controller.py], which is not part of the sources at hand.
    It gives the instance its list of lifetime listeners, empty at first. *)
Definition UnloadController__init__ : M unit :=
  modify (with_unload_listeners []).

(** Modelled from the spec: [UnloadController.unload], the teardown of
    [common/unload_controller.py], which is not part of the sources at hand.
    It cancels every listener the instance has recorded for unloading by
    calling its handle. *)
Definition unload : M unit :=
  unload_listeners ← gets _unload_listeners;
  for_each unload_listeners call_handle.

(** [ChargeService.__init__], run on the blank instance. *)
Definition __init__ : M unit :=
  UnloadController__init__;;
  modify (with_cancel_listeners []);;
  modify (with_charge_active false);;
  modify (with_perc_target (PyInt 0));;
  eco_start ← async_track_utc_time_change cb_set_target_soc
    (hour (_eco_start_time self)) (minute (_eco_start_time self) - 5) 0;
  modify (fun w =>
    with_unload_listeners (_unload_listeners w ++ [eco_start]) w);;
  eco_end ← async_track_utc_time_change cb_stop_hold
    (hour (_eco_end_time self)) (minute (_eco_end_time self)) 0;
  modify (fun w =>
    with_unload_listeners (_unload_listeners w ++ [eco_end]) w).

(** The world a fresh service is built in: a Home Assistant with nothing
    registered yet, at clock [t0], a battery controller in state
    [(r0, boost0, full0)], and no Fox call made. *)
Definition blank (t0 : Z) (r0 : readings) (boost0 full0 : bool) : world :=
  {| _cancel_listeners := []; _unload_listeners := [];
     _charge_active := false; _perc_target := PyInt 0;
     listeners := []; now := t0; battery := r0;
     boost := boost0; full := full0; refreshes := 0;
     fox_calls := []; invoked := [] |}.

Definition construct (t0 : Z) (r0 : readings) (boost0 full0 : bool) : world :=
  after __init__ (blank t0 r0 boost0 full0).

End Service.

(** ** Home Assistant driving the service *)

Section Substrate.

Variable env : environment.
Variable self : config.

Definition body (cb : callback) : M unit :=
  match cb with
  | cb_set_target_soc => _set_target_soc env self
  | cb_stop_hold => _stop_hold env self
  | cb_start_force_charge => _start_force_charge env
  | cb_stop_and_hold_charge => _stop_and_hold_charge env
  end.

(** Home Assistant runs a callback as a job of its own: an exception that
    leaves the callback is logged there and goes no further. *)
Definition invoke (cb : callback) (w : world) : world :=
  after (body cb) (with_invoked (invoked w ++ [cb]) w).

(** The wall clock, read off the minute counter. *)
Definition wall_hour (t : Z) : Z := ((t / 60) mod 24)%Z.
Definition wall_minute (t : Z) : Z := (t mod 60)%Z.

(** A time registration fires at the start of the minute [t] when each of
    its fields equals the clock's. *)
Definition time_matches (t : Z) (tr : track) : bool :=
  match tr with
  | utc_time_change _ h m s =>
      Z.eqb h (wall_hour t) && Z.eqb m (wall_minute t) && Z.eqb s 0
  | state_change _ _ _ _ => false
  end.

Definition matches_state (pattern : option string) (state : string) : bool :=
  match pattern with
  | None => true
  | Some s => String.eqb s state
  end.

(** A state registration fires on a change of its entity from [old_state] to
    [new_state] when both patterns match. *)
Definition state_matches (entity old_state new_state : string) (tr : track)
    : bool :=
  match tr with
  | utc_time_change _ _ _ _ => false
  | state_change e _ from_state to_state =>
      String.eqb e entity && matches_state from_state old_state
        && matches_state to_state new_state
  end.

Definition fire (matches : track → bool) (w : world) (k : nat) : world :=
  match listeners w !! k with
  | Some l =>
      if live l && matches (tracked l)
      then invoke (action_of (tracked l)) w
      else w
  | None => w
  end.

(** Every registration present when the event arrives is considered once, in
    the order of registration; one cancelled in the meantime does not fire. *)
Definition dispatch (matches : track → bool) (w : world) : world :=
  fold_left (fire matches) (seq 0 (length (listeners w))) w.

Definition tick (w : world) : world :=
  dispatch (time_matches (now w + 1)) (with_now (now w + 1)%Z w).

Definition state_changed (entity old_state new_state : string) (w : world)
    : world :=
  dispatch (state_matches entity old_state new_state) w.

Inductive event : Type :=
| Tick
| StateChanged (entity old_state new_state : string)
| Unload.

Definition step (w : world) (e : event) : world :=
  match e with
  | Tick => tick w
  | StateChanged entity old_state new_state =>
      state_changed entity old_state new_state w
  | Unload => after unload w
  end.

Definition run (es : list event) (w : world) : world := fold_left step es w.

(** What can happen to the service, one invocation at a time: Home
    Assistant invokes one of its callbacks, or the integration unloads it. *)
Inductive operation : Type :=
| Call (cb : callback)
| Teardown.

Definition perform (w : world) (o : operation) : world :=
  match o with
  | Call cb => invoke cb w
  | Teardown => after unload w
  end.

End Substrate.

(** ** Concrete inputs *)

Definition at_0200 : time :=
  {| hour := 2; minute := 0;
     hour_in_range := eq_refl; minute_in_range := eq_refl |}.

Definition at_0230 : time :=
  {| hour := 2; minute := 30;
     hour_in_range := eq_refl; minute_in_range := eq_refl |}.

Definition at_0500 : time :=
  {| hour := 5; minute := 0;
     hour_in_range := eq_refl; minute_in_range := eq_refl |}.

(** An eco period from 02:30 to 05:00, and the one from 02:00 to 05:00. *)
Definition eco_0230_0500 : config :=
  {| _eco_start_time := at_0230;
     _eco_end_time := at_0500;
     _battery_soc := "sensor.battery_soc";
     _original_soc := 20 |}.

Definition eco_0200_0500 : config :=
  {| _eco_start_time := at_0200;
     _eco_end_time := at_0500;
     _battery_soc := "sensor.battery_soc";
     _original_soc := 20 |}.

(** 4 kWh left, 10 kWh needed, a target of 79.75 percent. *)
Definition short_of_charge : readings :=
  {| battery_capacity_remaining := PyFloat (4 # 1);
     charge_total := PyFloat (10 # 1);
     charge_to_perc := PyFloat (319 # 4) |}.

Definition no_readings : readings :=
  {| battery_capacity_remaining := PyInt 0;
     charge_total := PyInt 0;
     charge_to_perc := PyInt 0 |}.

(** Every refresh answers [short_of_charge]; Fox never fails. *)
Definition calm : environment :=
  {| forecast := fun _ => Some short_of_charge; fox_fault := fun _ => false |}.

(** As [calm], but the second call to Fox raises. *)
Definition second_call_fails : environment :=
  {| forecast := fun _ => Some short_of_charge;
     fox_fault := fun k => Nat.eqb k 1 |}.

(** The service with the eco period from 02:30, built at midnight. *)
Definition midnight : world :=
  construct eco_0230_0500 0 no_readings false false.

(** One cycle without the sensor ever reaching the target: arm, start,
    release. *)
Definition after_one_day : world :=
  fold_left (perform calm eco_0230_0500)
    [Call cb_set_target_soc; Call cb_start_force_charge; Call cb_stop_hold]
    midnight.

(** The service armed and charging, the start having been the first call to
    Fox. *)
Definition charging_at_0230 : world :=
  fold_left (perform second_call_fails eco_0230_0500)
    [Call cb_set_target_soc; Call cb_start_force_charge] midnight.

(** The second day, armed: one cycle gone, and [_set_target_soc] run
    again. *)
Definition armed_second_day : world :=
  perform calm eco_0230_0500 after_one_day (Call cb_set_target_soc).

(** The end of the second day: armed, started, and at [_stop_hold]. *)
Definition second_day_at_0500 : world :=
  perform calm eco_0230_0500 armed_second_day (Call cb_start_force_charge).

(** The clock from midnight to 02:30 of the third day. *)
Definition third_day_0230 : world :=
  run calm eco_0230_0500 (repeat Tick (2 * 1440 + 150)) midnight.

(** The clock from midnight to 02:24, a minute before the service is due to
    be armed. *)
Definition morning_0224 : world :=
  run calm eco_0230_0500 (repeat Tick 144) midnight.

(** ** Derived notions used in the statements *)

(** The loop [for listener in hs: listener()] on the registry: whether it
    ran to its end, and the registry it leaves. *)
Fixpoint call_handles (hs : list nat) (ls : list listener)
    : bool * list listener :=
  match hs with
  | [] => (true, ls)
  | k :: hs' =>
      match ls !! k with
      | Some l =>
          if stale l then (false, ls)
          else call_handles hs' (alter unsubscribe k ls)
      | None => call_handles hs' ls
      end
  end.

Section Derived.

Variable self : config.

(** The two registrations of [__init__]. *)
Definition arm_trigger : track :=
  utc_time_change cb_set_target_soc
    (hour (_eco_start_time self)) (minute (_eco_start_time self) - 5) 0.

Definition release_trigger : track :=
  utc_time_change cb_stop_hold
    (hour (_eco_end_time self)) (minute (_eco_end_time self)) 0.

Definition start_trigger : track :=
  utc_time_change cb_start_force_charge
    (hour (_eco_start_time self)) (minute (_eco_start_time self)) 0.

Definition soc_watcher (perc : number) : track :=
  state_change (_battery_soc self) cb_stop_and_hold_charge None
    (Some (py_str (py_int perc))).

Definition fresh (t : track) : listener := {| tracked := t; unsubscribed := 0 |}.

(** The registrations one run of [_set_target_soc] makes on the answers [r]. *)
Definition armed (r : readings) : list track :=
  (if py_gt (charge_total r) (battery_capacity_remaining r)
   then [start_trigger] else [])
  ++ [soc_watcher (charge_to_perc r)].

End Derived.

(** The listeners a computation added to the registry. *)
Definition registered {A} (m : M A) (w : world) : list listener :=
  drop (length (listeners w)) (listeners (after m w)).

(** The Fox calls a computation made. *)
Definition issued {A} (m : M A) (w : world) : list fox_call :=
  drop (length (fox_calls w)) (fox_calls (after m w)).

(** No listener in the list of cycle listeners is live. *)
Definition cycle_listeners_cancelled (w : world) : Prop :=
  ∀ k l, k ∈ _cancel_listeners w → listeners w !! k = Some l → live l = false.

(** The charge flag as the history of invocations determines it: set by
    the last [_start_force_charge], unless a [_stop_and_hold_charge] came
    after it. *)
Definition charging (history : list callback) : bool :=
  fold_left (fun b cb =>
    match cb with
    | cb_start_force_charge => true
    | cb_stop_and_hold_charge => false
    | _ => b
    end) history false.

(** A start of the force charge was sent to Fox, and no stop after it. *)
Definition force_charge_pending (calls : list fox_call) : bool :=
  fold_left (fun b c =>
    match c with
    | start_force_charge => true
    | stop_force_charge => false
    | set_min_soc _ => b
    end) calls false.

(** The invocations of [_start_force_charge] since the last invocation of
    [_set_target_soc]. *)
Definition starts_this_cycle (history : list callback) : nat :=
  fold_left (fun n cb =>
    match cb with
    | cb_set_target_soc => 0
    | cb_start_force_charge => S n
    | _ => n
    end) history 0.

(** No listener but the two of [__init__] is live. *)
Definition quiet (w : world) : Prop :=
  ∀ k l, 2 <= k → listeners w !! k = Some l → live l = false.

(** The listener with handle [k] does not answer to the event [m]. *)
Definition idle (m : track → bool) (w : world) (k : nat) : Prop :=
  ∀ l, listeners w !! k = Some l → live l && m (tracked l) = false.

(** The clock reads the time of day [t]. *)
Definition clock_reads (t : Z) (tod : time) : Prop :=
  wall_hour t = hour tod ∧ wall_minute t = minute tod.

(** The charge flag agrees with the history of invocations and with the
    commands sent to Fox. *)
Definition flag_consistent (w : world) : Prop :=
  _charge_active w = charging (invoked w)
  ∧ _charge_active w = force_charge_pending (fox_calls w).

Section Invariant.

Variable self : config.

(** How the registry and the list of cycle listeners hang together in every
    state Home Assistant can bring a built service to. *)
Record structured (w : world) : Prop := {
  st_arm : ∃ l, listeners w !! 0 = Some l ∧ tracked l = arm_trigger self;
  st_release :
    ∃ l, listeners w !! 1 = Some l ∧ tracked l = release_trigger self;
  st_cycle : ∀ k l, 2 <= k → listeners w !! k = Some l →
    tracked l = start_trigger self ∨ ∃ p, tracked l = soc_watcher self p;
  st_cancel : ∀ k, k ∈ _cancel_listeners w → 2 <= k
}.

End Invariant.

(** ** Further notions *)

(** The two listeners of [__init__] are live. *)
Definition lifetime_live (w : world) : Prop :=
  ∃ l0 l1, listeners w !! 0 = Some l0 ∧ live l0 = true
           ∧ listeners w !! 1 = Some l1 ∧ live l1 = true.

(** Every stop of the force charge in the log comes while a start is
    pending. *)
Definition stops_follow_starts (calls : list fox_call) : Prop :=
  ∀ before later, calls = before ++ stop_force_charge :: later →
    force_charge_pending before = true.

(** The Fox calls of [_stop_and_hold_charge] that raise, if any: the stop,
    or else the hold. *)
Definition stop_fails (env : environment) (w : world) : bool :=
  _charge_active w && fox_fault env (length (fox_calls w)).

Definition hold_fails (env : environment) (w : world) : bool :=
  negb (stop_fails env w)
  && fox_fault env
       (if _charge_active w then S (length (fox_calls w))
        else length (fox_calls w)).

(** The service was built and not unloaded. *)
Definition alive (self : config) (w : world) : Prop :=
  structured self w ∧ lifetime_live w.

(** The lists hold exactly the handles of the registry. *)
Definition booked (w : world) : Prop :=
  2 <= length (listeners w)
  ∧ _unload_listeners w = seq 0 (length (listeners w))
  ∧ _cancel_listeners w = seq 2 (length (listeners w) - 2).

(** The state [__init__] leaves when its first registration raises:
    nothing is registered and both lists are empty. *)
Definition unbuilt (w : world) : Prop :=
  listeners w = [] ∧ _unload_listeners w = [] ∧ _cancel_listeners w = [].

(** The handles of the live triggers of [_start_force_charge]. *)
Definition live_start_handles (w : world) : list nat :=
  List.filter
    (fun k =>
       match listeners w !! k with
       | Some l =>
           live l
           && match action_of (tracked l) with
              | cb_start_force_charge => true
              | _ => false
              end
       | None => false
       end)
    (seq 0 (length (listeners w))).

(** Which listeners are live, in the order of registration. *)
Definition liveness (w : world) : list bool := live <$> listeners w.

(** The flag and the log of Fox calls fit together. *)
Definition fox_sound (w : world) : Prop :=
  flag_consistent w ∧ stops_follow_starts (fox_calls w).

Arguments valid_pattern : simpl never.

Ltac run_m :=
  cbv beta iota delta
    [mbind M_bind bind mret M_ret ret raise gets modify fox register
     async_track_utc_time_change async_track_state_change
     set_boost set_full async_refresh];
  cbn.

Ltac Zify.zify_post_hook ::= Z.div_mod_to_equations.

(** * Properties *)

Lemma py_gt_spec (x y : number) : py_gt x y = true ↔ (to_Q y < to_Q x)%Q.
Proof.
  unfold py_gt. rewrite negb_true_iff, <- not_true_iff_false, Qle_bool_iff.
  split; [apply Qnot_le_lt | apply Qlt_not_le].
Qed.

Lemma py_gt_false (x y : number) : py_gt x y = false ↔ (to_Q x <= to_Q y)%Q.
Proof.
  unfold py_gt. rewrite negb_false_iff. apply Qle_bool_iff.
Qed.

(** ** Times of day and what Home Assistant accepts *)

Lemma in_range_spec (lo hi x : Z) : in_range lo hi x = true ↔ (lo <= x <= hi)%Z.
Proof. unfold in_range. rewrite andb_true_iff, !Z.leb_le. tauto. Qed.

Lemma time_valid (t : time) : valid_time t.
Proof.
  pose proof (hour_in_range t) as Hh. pose proof (minute_in_range t) as Hm.
  apply in_range_spec in Hh, Hm. unfold valid_time. lia.
Qed.

Lemma valid_pattern_time (t : time) :
  valid_pattern (hour t) (minute t) 0 = true.
Proof.
  unfold valid_pattern. by rewrite hour_in_range, minute_in_range.
Qed.

Lemma valid_pattern_arm (t : time) :
  valid_pattern (hour t) (minute t - 5) 0 = (5 <=? minute t)%Z.
Proof.
  unfold valid_pattern. rewrite hour_in_range, andb_true_r.
  pose proof (minute_in_range t) as Hm. apply in_range_spec in Hm.
  change (in_range 0 59 0) with true. cbn [andb].
  destruct (Z.leb_spec 5 (minute t)).
  - apply in_range_spec. lia.
  - apply not_true_iff_false. rewrite in_range_spec. lia.
Qed.

(** ** The loop over a list of handles *)

Lemma with_listeners_same (w : world) : with_listeners (listeners w) w = w.
Proof. by destruct w. Qed.

Lemma for_each_call_handle (hs : list nat) (w : world) :
  for_each hs call_handle w
  = (if (call_handles hs (listeners w)).1 then Ok tt else Raise,
     with_listeners (call_handles hs (listeners w)).2 w).
Proof.
  revert w. induction hs as [|h hs IH]; intros w.
  - cbn. by rewrite with_listeners_same.
  - cbn [for_each call_handles]. unfold bind at 1. unfold call_handle at 1.
    destruct (listeners w !! h) as [l|]; [destruct (stale l)|].
    + cbn. by rewrite with_listeners_same.
    + rewrite IH. reflexivity.
    + rewrite IH. reflexivity.
Qed.

Lemma stale_kept (l l' : listener) :
  tracked l' = tracked l → unsubscribed l <= unsubscribed l' →
  stale l = true → stale l' = true.
Proof.
  unfold stale, live. intros -> Hle. rewrite !andb_true_iff, !negb_true_iff.
  intros [Hs Hl]. split; [exact Hs|].
  apply Nat.eqb_neq in Hl. apply Nat.eqb_neq. lia.
Qed.

Lemma call_handles_length (hs : list nat) (ls : list listener) :
  length (call_handles hs ls).2 = length ls.
Proof.
  revert ls. induction hs as [|h hs IH]; intros ls; [reflexivity|].
  cbn. destruct (ls !! h) as [l|]; [destruct (stale l)|]; auto.
  rewrite IH. apply length_alter.
Qed.

(** A listener keeps what it tracks, and is never revived. *)
Lemma call_handles_lookup (hs : list nat) (ls : list listener) (k : nat)
    (l : listener) :
  ls !! k = Some l →
  ∃ l', (call_handles hs ls).2 !! k = Some l'
        ∧ tracked l' = tracked l
        ∧ unsubscribed l <= unsubscribed l'.
Proof.
  revert ls l. induction hs as [|h hs IH]; intros ls l Hk; [cbn; eauto|].
  cbn. destruct (ls !! h) as [lh|] eqn:Eh; [destruct (stale lh)|]; eauto.
  destruct (decide (h = k)) as [->|Hne].
  - destruct (IH (alter unsubscribe k ls) (unsubscribe l)) as (l' & ? & ? & ?).
    { by rewrite list_lookup_alter_eq, Hk. }
    exists l'. cbn in *. repeat split; auto. lia.
  - apply IH. by rewrite list_lookup_alter_ne.
Qed.

Lemma call_handles_lookup_inv (hs : list nat) (ls : list listener) (k : nat)
    (l' : listener) :
  (call_handles hs ls).2 !! k = Some l' →
  ∃ l, ls !! k = Some l ∧ tracked l' = tracked l
       ∧ unsubscribed l <= unsubscribed l'.
Proof.
  intros Hk. destruct (ls !! k) as [l|] eqn:El.
  - destruct (call_handles_lookup hs ls k l El) as (l'' & Hk' & ? & ?).
    rewrite Hk in Hk'. injection Hk' as <-. eauto.
  - apply lookup_lt_Some in Hk. rewrite call_handles_length in Hk.
    apply lookup_ge_None in El. lia.
Qed.

Lemma call_handles_other (hs : list nat) (ls : list listener) (k : nat) :
  k ∉ hs → (call_handles hs ls).2 !! k = ls !! k.
Proof.
  revert ls. induction hs as [|h hs IH]; intros ls Hk; [reflexivity|].
  apply not_elem_of_cons in Hk as [Hne Hk].
  cbn. destruct (ls !! h) as [lh|]; [destruct (stale lh)|]; auto.
  rewrite IH by exact Hk. by apply list_lookup_alter_ne.
Qed.

(** When the loop runs to its end, every handle of the list was called. *)
Lemma call_handles_done (hs : list nat) (ls : list listener) (k : nat)
    (l' : listener) :
  (call_handles hs ls).1 = true → k ∈ hs →
  (call_handles hs ls).2 !! k = Some l' →
  ∃ l, ls !! k = Some l ∧ unsubscribed l < unsubscribed l'.
Proof.
  revert ls. induction hs as [|h hs IH]; intros ls Hdone Hin Hk;
    [inversion Hin|].
  cbn in Hdone, Hk. destruct (ls !! h) as [lh|] eqn:Eh.
  - destruct (stale lh); [discriminate|].
    destruct (decide (k = h)) as [->|Hne].
    + destruct (call_handles_lookup_inv _ _ _ _ Hk) as (l & Hl & _ & Hle).
      rewrite list_lookup_alter_eq, Eh in Hl. injection Hl as <-.
      exists lh. split; [exact Eh|]. cbn in Hle. lia.
    + apply elem_of_cons in Hin as [?|Hin]; [contradiction|].
      destruct (IH _ Hdone Hin Hk) as (l & Hl & Hlt).
      rewrite list_lookup_alter_ne in Hl by auto. eauto.
  - apply elem_of_cons in Hin as [->|Hin]; [|by apply IH].
    destruct (call_handles_lookup_inv _ _ _ _ Hk) as (l & Hl & _).
    congruence.
Qed.

Lemma call_handles_done_cancelled (hs : list nat) (ls : list listener)
    (k : nat) (l' : listener) :
  (call_handles hs ls).1 = true → k ∈ hs →
  (call_handles hs ls).2 !! k = Some l' → live l' = false.
Proof.
  intros Hdone Hin Hk.
  destruct (call_handles_done hs ls k l' Hdone Hin Hk) as (l & _ & Hlt).
  apply Nat.eqb_neq. lia.
Qed.

(** A stale handle anywhere in the list stops the loop. *)
Lemma call_handles_stale (hs : list nat) (ls : list listener) (k : nat)
    (l : listener) :
  k ∈ hs → ls !! k = Some l → stale l = true →
  (call_handles hs ls).1 = false.
Proof.
  revert ls. induction hs as [|h hs IH]; intros ls Hin Hk Hst;
    [inversion Hin|].
  cbn. destruct (ls !! h) as [lh|] eqn:Eh.
  - destruct (stale lh) eqn:Esh; [reflexivity|].
    apply elem_of_cons in Hin as [->|Hin]; [congruence|].
    apply IH; auto.
    rewrite list_lookup_alter_ne; [exact Hk|]. intros ->. congruence.
  - apply elem_of_cons in Hin as [->|Hin]; [congruence|]. by apply IH.
Qed.

Lemma call_handles_app (pre rest : list nat) (ls : list listener) :
  call_handles (pre ++ rest) ls
  = if (call_handles pre ls).1
    then call_handles rest (call_handles pre ls).2
    else call_handles pre ls.
Proof.
  revert ls. induction pre as [|h pre IH]; intros ls; [reflexivity|].
  cbn. destruct (ls !! h) as [lh|]; [destruct (stale lh)|]; auto.
Qed.

(** The loop stops at a stale handle at the latest, and has then touched
    only listeners of the handles in front of it. *)
Lemma call_handles_abort (pre post : list nat) (k : nat)
    (ls : list listener) (l : listener) :
  ls !! k = Some l → stale l = true →
  (call_handles (pre ++ k :: post) ls).1 = false
  ∧ ∀ j, j ∉ pre → (call_handles (pre ++ k :: post) ls).2 !! j = ls !! j.
Proof.
  intros Hk Hst. rewrite call_handles_app.
  destruct (call_handles pre ls).1 eqn:Epre.
  - destruct (call_handles_lookup pre ls k l Hk) as (l' & Hk' & Ht & Hle).
    cbn [call_handles]. rewrite Hk', (stale_kept l l' Ht Hle Hst). cbn.
    split; [reflexivity|]. intros j Hj. by apply call_handles_other.
  - split; [exact Epre|]. intros j Hj. by apply call_handles_other.
Qed.

(** Handles that are distinct and not stale are all called. *)
Lemma call_handles_fresh (hs : list nat) (ls : list listener) :
  NoDup hs →
  (∀ k l, k ∈ hs → ls !! k = Some l → stale l = false) →
  (call_handles hs ls).1 = true.
Proof.
  revert ls. induction hs as [|h hs IH]; intros ls Hnd Hfresh;
    [reflexivity|].
  apply NoDup_cons in Hnd as [Hnin Hnd]. cbn.
  destruct (ls !! h) as [lh|] eqn:Eh.
  - rewrite (Hfresh h lh ltac:(left) Eh). apply IH; [exact Hnd|].
    intros k l Hin Hk.
    assert (Hne : h ≠ k) by (intros ->; contradiction).
    rewrite list_lookup_alter_ne in Hk by exact Hne.
    apply (Hfresh k l); [by right | exact Hk].
  - apply IH; [exact Hnd|]. intros k l Hin Hk.
    apply (Hfresh k l); [by right | exact Hk].
Qed.

(** ** What each method does to the state *)

Section Methods.

Variable env : environment.
Variable self : config.

Lemma set_target_soc_ok (w : world) (r : readings) :
  forecast env (refreshes w) = Some r →
  let w' := after (_set_target_soc env self) w in
  completes (_set_target_soc env self) w
  ∧ listeners w' = listeners w ++ (fresh <$> armed self r)
  ∧ _cancel_listeners w'
    = _cancel_listeners w ++ seq (length (listeners w)) (length (armed self r))
  ∧ _unload_listeners w'
    = _unload_listeners w ++ seq (length (listeners w)) (length (armed self r))
  ∧ _perc_target w' = charge_to_perc r
  ∧ _charge_active w' = _charge_active w
  ∧ fox_calls w' = fox_calls w
  ∧ invoked w' = invoked w
  ∧ now w' = now w.
Proof.
  intros Hr. unfold completes, after, _set_target_soc, armed. run_m.
  rewrite Hr. cbn.
  destruct (py_gt (charge_total r) (battery_capacity_remaining r)); cbn;
    rewrite ?valid_pattern_time; cbn;
    rewrite ?length_app, <- ?app_assoc; cbn; rewrite ?Nat.add_1_r;
    repeat split; eauto.
Qed.

Lemma set_target_soc_raise (w : world) :
  forecast env (refreshes w) = None →
  raises (_set_target_soc env self) w
  ∧ after (_set_target_soc env self) w = with_refresh_failed w.
Proof.
  intros Hr. unfold raises, after, _set_target_soc. run_m. by rewrite Hr.
Qed.

Lemma start_force_charge_after (w : world) :
  after (_start_force_charge env) w
  = with_fox_calls (fox_calls w ++ [start_force_charge])
      (with_charge_active true w).
Proof. reflexivity. Qed.

Lemma stop_hold_run (w : world) :
  _stop_hold env self w
  = if (call_handles (_cancel_listeners w) (listeners w)).1
    then fox env (set_min_soc (py_mul100 (_original_soc self)))
           (with_listeners
              (call_handles (_cancel_listeners w) (listeners w)).2 w)
    else (Raise,
          with_listeners
            (call_handles (_cancel_listeners w) (listeners w)).2 w).
Proof.
  unfold _stop_hold. run_m. rewrite for_each_call_handle.
  by destruct (call_handles (_cancel_listeners w) (listeners w)).1.
Qed.

Lemma stop_hold_after (w : world) :
  let w' := after (_stop_hold env self) w in
  let done := (call_handles (_cancel_listeners w) (listeners w)).1 in
  listeners w' = (call_handles (_cancel_listeners w) (listeners w)).2
  ∧ _cancel_listeners w' = _cancel_listeners w
  ∧ _unload_listeners w' = _unload_listeners w
  ∧ invoked w' = invoked w
  ∧ now w' = now w
  ∧ _charge_active w' = _charge_active w
  ∧ fox_calls w'
    = fox_calls w
      ++ (if done then [set_min_soc (py_mul100 (_original_soc self))]
          else []).
Proof.
  cbv zeta. unfold after. rewrite stop_hold_run.
  destruct (call_handles (_cancel_listeners w) (listeners w)).1; cbn;
    rewrite ?app_nil_r; auto 10.
Qed.

Lemma stop_hold_state (w : world) :
  let w' := after (_stop_hold env self) w in
  _perc_target w' = _perc_target w ∧ boost w' = boost w ∧ full w' = full w.
Proof.
  cbv zeta. unfold after. rewrite stop_hold_run.
  destruct (call_handles (_cancel_listeners w) (listeners w)).1; cbn; auto.
Qed.

Lemma stop_hold_raises (w : world) :
  raises (_stop_hold env self) w
  ↔ (call_handles (_cancel_listeners w) (listeners w)).1 = false
    ∨ fox_fault env (length (fox_calls w)) = true.
Proof.
  unfold raises. rewrite stop_hold_run.
  destruct (call_handles (_cancel_listeners w) (listeners w)).1; cbn.
  - destruct (fox_fault env (length (fox_calls w))).
    + split; auto.
    + split; [discriminate | intros [?|?]; discriminate].
  - split; auto.
Qed.

Lemma unload_run (w : world) :
  unload w
  = (if (call_handles (_unload_listeners w) (listeners w)).1
     then Ok tt else Raise,
     with_listeners (call_handles (_unload_listeners w) (listeners w)).2 w).
Proof. unfold unload. run_m. by rewrite for_each_call_handle. Qed.

Lemma unload_after (w : world) :
  after unload w
  = with_listeners (call_handles (_unload_listeners w) (listeners w)).2 w.
Proof. unfold after. by rewrite unload_run. Qed.

(** [_stop_and_hold_charge] touches the flag, the Fox service and the battery
    controller only. *)
Lemma stop_and_hold_charge_frame (w : world) :
  let w' := after (_stop_and_hold_charge env) w in
  listeners w' = listeners w
  ∧ _cancel_listeners w' = _cancel_listeners w
  ∧ _unload_listeners w' = _unload_listeners w
  ∧ _charge_active w' = false
  ∧ _perc_target w' = _perc_target w
  ∧ invoked w' = invoked w
  ∧ now w' = now w.
Proof.
  unfold after, _stop_and_hold_charge. run_m.
  destruct (_charge_active w) eqn:Ha; cbn;
    repeat (match goal with |- context [fox_fault ?e ?n] =>
              destruct (fox_fault e n) end; cbn);
    auto 10.
Qed.

Lemma init_ok (w : world) :
  (5 <= minute (_eco_start_time self))%Z →
  let w' := after (__init__ self) w in
  completes (__init__ self) w
  ∧ listeners w'
    = listeners w ++ [fresh (arm_trigger self); fresh (release_trigger self)]
  ∧ _unload_listeners w' = [length (listeners w); S (length (listeners w))]
  ∧ _cancel_listeners w' = []
  ∧ _charge_active w' = false
  ∧ fox_calls w' = fox_calls w.
Proof.
  intros Hm. unfold completes, after, __init__, UnloadController__init__.
  run_m. rewrite valid_pattern_arm.
  destruct (Z.leb_spec 5 (minute (_eco_start_time self))) as [_|]; [|lia].
  cbn. rewrite valid_pattern_time. cbn.
  rewrite length_app, Nat.add_1_r, <- app_assoc.
  repeat split; eauto.
Qed.

Lemma init_raise (w : world) :
  (minute (_eco_start_time self) < 5)%Z →
  let w' := after (__init__ self) w in
  raises (__init__ self) w
  ∧ listeners w' = listeners w
  ∧ _unload_listeners w' = []
  ∧ _cancel_listeners w' = []
  ∧ fox_calls w' = fox_calls w
  ∧ invoked w' = invoked w.
Proof.
  intros Hm. unfold raises, after, __init__, UnloadController__init__.
  run_m. rewrite valid_pattern_arm.
  destruct (Z.leb_spec 5 (minute (_eco_start_time self))) as [|_]; [lia|].
  cbn. auto 10.
Qed.

Lemma stop_and_hold_charge_inactive (w : world) :
  _charge_active w = false →
  issued (_stop_and_hold_charge env) w = [set_min_soc (_perc_target w)]
  ∧ (raises (_stop_and_hold_charge env) w →
     fox_fault env (length (fox_calls w)) = true).
Proof.
  intros Ha. unfold raises, issued, after, _stop_and_hold_charge. run_m.
  rewrite Ha. cbn.
  destruct (fox_fault env (length (fox_calls w))); cbn;
    rewrite drop_app_length; split; auto; discriminate.
Qed.

End Methods.

(** ** The wall clock *)

Lemma time_matches_valid (a : callback) (h m t : Z) :
  time_matches t (utc_time_change a h m 0) = true
  ↔ wall_hour t = h ∧ wall_minute t = m.
Proof.
  cbn. rewrite !andb_true_iff, !Z.eqb_eq. intuition congruence.
Qed.

Lemma time_matches_negative_minute (a : callback) (h m s t : Z) :
  (m < 0)%Z → time_matches t (utc_time_change a h m s) = false.
Proof.
  intros Hm. cbn. apply andb_false_iff. left. apply andb_false_iff. right.
  apply Z.eqb_neq. unfold wall_minute.
  pose proof (Z.mod_pos_bound t 60 ltac:(lia)). lia.
Qed.

Section Claims.

Variable env : environment.
Variable self : config.

(** ** Construction *)

(** C7: [__init__] completes exactly when the minute of the start of the
    eco period is at least 5 (with a smaller one Home Assistant refuses the
    first registration).  Whenever it completes, and whatever the world the
    service is built in, it has registered exactly two listeners (the trigger
    of [_set_target_soc] and the trigger of [_stop_hold] at the end of the
    eco period), recorded exactly their two handles for unloading, left the
    list of cycle listeners empty and the charge flag false, and made no
    call to the Fox service. *)
Theorem init_registers_two_lifetime_triggers (w : world) :
  let w' := after (__init__ self) w in
  (completes (__init__ self) w ↔ (5 <= minute (_eco_start_time self))%Z)
  ∧ (completes (__init__ self) w →
     registered (__init__ self) w
     = [fresh (arm_trigger self); fresh (release_trigger self)]
     ∧ _unload_listeners w' = [length (listeners w); S (length (listeners w))]
     ∧ _cancel_listeners w' = []
     ∧ _charge_active w' = false
     ∧ issued (__init__ self) w = []).
Proof.
  cbv zeta.
  destruct (Z_lt_le_dec (minute (_eco_start_time self)) 5) as [Hlt|Hge].
  - destruct (init_raise self w Hlt) as (Hr & _).
    assert (Hn : ¬ completes (__init__ self) w).
    { intros [a Ha]. unfold raises in Hr. congruence. }
    split; [split; [contradiction | lia] | contradiction].
  - destruct (init_ok self w Hge) as (Hok & Hl & Hu & Hc & Ha & Hf).
    split; [tauto|]. intros _.
    unfold registered, issued. rewrite Hl, Hf, drop_app_length.
    repeat split; auto.
    rewrite <- (app_nil_r (fox_calls w)) at 2. apply drop_app_length.
Qed.

(** C3, on the code: when the minute of the start of the eco period is below
    5, the trigger that [__init__] asks for carries the negative minute
    [minute - 5] and the unchanged hour.  Home Assistant refuses it: the
    constructor raises and nothing is registered; the pattern asked for
    matches no minute of the clock anyway, while the minute that lies five
    minutes before the start of the eco period exists. *)
Theorem arm_trigger_minute_underflow (w : world) :
  valid_time (_eco_start_time self) →
  (minute (_eco_start_time self) < 5)%Z →
  (raises (__init__ self) w ∧ registered (__init__ self) w = [])
  ∧ (∀ t', time_matches t' (arm_trigger self) = false)
  ∧ ∃ t', clock_reads (t' + 5) (_eco_start_time self).
Proof.
  intros [Hh Hm] Hlt. split; [|split].
  - destruct (init_raise self w Hlt) as (Hr & Hl & _).
    split; [exact Hr|]. unfold registered. rewrite Hl. apply drop_all.
  - intros t'. apply time_matches_negative_minute. lia.
  - exists (60 * hour (_eco_start_time self)
            + minute (_eco_start_time self) - 5)%Z.
    unfold clock_reads, wall_hour, wall_minute.
    split; lia.
Qed.

(** Where the minute is at least 5 the trigger does fire five minutes before
    the start of the eco period, and only then. *)
Lemma arm_trigger_five_minutes_before (t : Z) :
  valid_time (_eco_start_time self) →
  (5 <= minute (_eco_start_time self))%Z →
  time_matches t (arm_trigger self) = true
  ↔ clock_reads (t + 5) (_eco_start_time self).
Proof.
  intros [Hh Hm] Hge. unfold arm_trigger. rewrite time_matches_valid.
  unfold clock_reads, wall_hour, wall_minute. split; intros [H1 H2]; split; lia.
Qed.

(** ** Arming the cycle *)

(** C4: when the forecast refresh succeeds with the answers [r],
    [_set_target_soc] registers the trigger of [_start_force_charge] if and
    only if [charge_total] is strictly greater than
    [battery_capacity_remaining]; that trigger matches exactly the minutes
    at which the clock reads the start of the eco period; with
    [charge_total <= battery_capacity_remaining] the only registration made
    is the SoC watcher. *)
Theorem start_trigger_iff_capacity_needed (w : world) (r : readings) :
  forecast env (refreshes w) = Some r →
  let needed := to_Q (charge_total r) in
  let remaining := to_Q (battery_capacity_remaining r) in
  let new := registered (_set_target_soc env self) w in
  (fresh (start_trigger self) ∈ new ↔ (remaining < needed)%Q)
  ∧ ((remaining < needed)%Q →
     new = [fresh (start_trigger self);
            fresh (soc_watcher self (charge_to_perc r))])
  ∧ ((needed <= remaining)%Q →
     new = [fresh (soc_watcher self (charge_to_perc r))])
  ∧ (∀ t, time_matches t (start_trigger self) = true
          ↔ clock_reads t (_eco_start_time self)).
Proof.
  intros Hr needed remaining new.
  destruct (set_target_soc_ok env self w r Hr) as (_ & Hl & _).
  assert (Hnew : new = (fresh <$> armed self r)).
  { unfold new, registered. rewrite Hl. apply drop_app_length. }
  assert (Ht : ∀ t, time_matches t (start_trigger self) = true
                    ↔ clock_reads t (_eco_start_time self))
    by (intros t; apply time_matches_valid).
  rewrite Hnew. unfold armed.
  destruct (py_gt (charge_total r) (battery_capacity_remaining r)) eqn:Hgt.
  - apply py_gt_spec in Hgt. fold needed remaining in Hgt.
    split; [|split; [|split]]; auto.
    + split; auto. intros _. cbn. left.
    + intros Hle. exfalso. exact (Qlt_not_le _ _ Hgt Hle).
  - apply py_gt_false in Hgt. fold needed remaining in Hgt.
    split; [|split; [|split]]; auto.
    + cbn. split.
      * intros Hin. apply list_elem_of_singleton in Hin. discriminate Hin.
      * intros Hlt. exfalso. exact (Qlt_not_le _ _ Hlt Hgt).
    + intros Hlt. exfalso. exact (Qlt_not_le _ _ Hlt Hgt).
Qed.

(** C2, as the code has it: when the forecast refresh succeeds with the
    answers [r], [_set_target_soc] registers exactly one state listener,
    whatever the charge decision; it is live, and it matches a state change
    exactly when the entity is the configured sensor and the new state is the
    decimal numeral of [int(charge_to_perc())], the target truncated toward
    zero.  When the refresh raises, nothing is registered. *)
Theorem soc_watcher_truncated_target (w : world) :
  let new := registered (_set_target_soc env self) w in
  (∀ r, forecast env (refreshes w) = Some r →
     filter (fun l => action_of (tracked l) = cb_stop_and_hold_charge) new
     = [fresh (soc_watcher self (charge_to_perc r))]
     ∧ _perc_target (after (_set_target_soc env self) w) = charge_to_perc r
     ∧ ∀ entity old_state new_state,
         state_matches entity old_state new_state
           (soc_watcher self (charge_to_perc r)) = true
         ↔ entity = _battery_soc self
           ∧ new_state = py_str (py_int (charge_to_perc r)))
  ∧ (forecast env (refreshes w) = None → new = []).
Proof.
  intros new. split.
  - intros r Hr.
    destruct (set_target_soc_ok env self w r Hr) as (_ & Hl & _ & _ & Hp & _).
    assert (Hnew : new = (fresh <$> armed self r)).
    { unfold new, registered. rewrite Hl. apply drop_app_length. }
    split; [|split]; [| exact Hp |].
    + rewrite Hnew. unfold armed.
      destruct (py_gt (charge_total r) (battery_capacity_remaining r));
        reflexivity.
    + intros entity old_state new_state. cbn.
      rewrite andb_true_r, andb_true_iff, !String.eqb_eq.
      intuition congruence.
  - intros Hr. destruct (set_target_soc_raise env self w Hr) as [_ Hw].
    unfold new, registered. rewrite Hw. cbn. apply drop_all.
Qed.

(** ** Stop and hold *)

(** C5: when no Fox call of the invocation raises, [_stop_and_hold_charge]
    calls [stop_force_charge] once if the charge flag was set and not at all
    otherwise, then calls [set_min_soc] with the target once; afterwards the
    charge flag, [boost] and [full] are all false.  A second invocation right
    after it makes the single call [set_min_soc] with the same target, so no
    second stop, and it can only raise if that Fox call does. *)
Theorem stop_and_hold_charge_commands (w : world) :
  completes (_stop_and_hold_charge env) w →
  let w' := after (_stop_and_hold_charge env) w in
  issued (_stop_and_hold_charge env) w
  = (if _charge_active w then [stop_force_charge] else [])
    ++ [set_min_soc (_perc_target w)]
  ∧ _charge_active w' = false
  ∧ boost w' = false
  ∧ full w' = false
  ∧ issued (_stop_and_hold_charge env) w' = [set_min_soc (_perc_target w)]
  ∧ (raises (_stop_and_hold_charge env) w' →
     fox_fault env (length (fox_calls w')) = true).
Proof.
  intros Hok w'.
  destruct (stop_and_hold_charge_frame env w) as (_ & _ & _ & Ha' & Hp & _).
  fold w' in Ha', Hp.
  destruct (stop_and_hold_charge_inactive env w' Ha') as [Hi Hr].
  rewrite Hp in Hi.
  assert (H1 : issued (_stop_and_hold_charge env) w
               = (if _charge_active w then [stop_force_charge] else [])
                 ++ [set_min_soc (_perc_target w)]
               ∧ boost w' = false ∧ full w' = false);
    [| tauto].
  clear Hi Hr Ha' Hp. revert Hok. subst w'.
  unfold completes, issued, after, _stop_and_hold_charge. run_m.
  destruct (_charge_active w) eqn:Ha; cbn;
    repeat (match goal with |- context [fox_fault ?e ?n] =>
              destruct (fox_fault e n) end; cbn);
    try (intros [a Habs]; discriminate);
    intros _; rewrite <- ?app_assoc, drop_app_length; auto.
Qed.

(** C6, as the code has it: when the charge flag is set and the call to
    [stop_force_charge] raises, the exception leaves
    [_stop_and_hold_charge]; the flag is false by then, because it is cleared
    before the call; [stop_force_charge] is the only Fox call made, so
    [set_min_soc] is not called, and [boost] and [full] are not reset. *)
Theorem stop_failure_propagates (w : world) :
  _charge_active w = true →
  fox_fault env (length (fox_calls w)) = true →
  let w' := after (_stop_and_hold_charge env) w in
  raises (_stop_and_hold_charge env) w
  ∧ _charge_active w' = false
  ∧ issued (_stop_and_hold_charge env) w = [stop_force_charge]
  ∧ boost w' = boost w
  ∧ full w' = full w.
Proof.
  intros Ha Hf. unfold raises, issued, after, _stop_and_hold_charge. run_m.
  rewrite Ha. cbn. rewrite Hf. cbn. rewrite drop_app_length. auto.
Qed.

(** ** Releasing the hold *)

Lemma stop_hold_issued (w : world) :
  issued (_stop_hold env self) w
  = if (call_handles (_cancel_listeners w) (listeners w)).1
    then [set_min_soc (py_mul100 (_original_soc self))] else [].
Proof.
  unfold issued.
  destruct (stop_hold_after env self w) as (_ & _ & _ & _ & _ & _ & ->).
  rewrite drop_app_length. reflexivity.
Qed.

(** C8, on the code: [_stop_hold] calls the handles of the whole list of
    cycle listeners before it calls Fox.  When the list holds the handle of
    a state listener that was cancelled before, as it does from the second
    cycle on, calling that handle raises: [_stop_hold] raises and makes no
    Fox call, so [set_min_soc] with [_original_soc * 100] is not sent. *)
Theorem stop_hold_raises_before_restoring (w : world) (k : nat)
    (l : listener) :
  k ∈ _cancel_listeners w → listeners w !! k = Some l → stale l = true →
  raises (_stop_hold env self) w ∧ issued (_stop_hold env self) w = [].
Proof.
  intros Hin Hk Hst.
  pose proof (call_handles_stale _ _ k l Hin Hk Hst) as Hdone.
  split.
  - apply stop_hold_raises. by left.
  - by rewrite stop_hold_issued, Hdone.
Qed.

(** On a list of distinct handles none of which is stale, as in the first
    cycle, the loop runs to its end and the one Fox call is made. *)
Lemma stop_hold_first_cycle (w : world) :
  NoDup (_cancel_listeners w) →
  (∀ k l, k ∈ _cancel_listeners w → listeners w !! k = Some l →
          stale l = false) →
  issued (_stop_hold env self) w
  = [set_min_soc (PyInt (_original_soc self * 100))]
  ∧ cycle_listeners_cancelled (after (_stop_hold env self) w)
  ∧ (raises (_stop_hold env self) w
     ↔ fox_fault env (length (fox_calls w)) = true).
Proof.
  intros Hnd Hfresh.
  pose proof (call_handles_fresh _ _ Hnd Hfresh) as Hdone.
  split; [|split].
  - by rewrite stop_hold_issued, Hdone.
  - intros k l' Hin Hk.
    destruct (stop_hold_after env self w) as (Hl & Hc & _).
    rewrite Hl in Hk. rewrite Hc in Hin.
    by apply (call_handles_done_cancelled _ _ k l' Hdone Hin).
  - rewrite stop_hold_raises, Hdone. split; [intros [?|?]|]; auto.
    discriminate.
Qed.

(** ** The two listener lists *)

(** Whatever the outcome of the refresh, [_set_target_soc] appends the
    handles of the listeners it registers, all of them and nothing else, to
    both lists. *)
Lemma set_target_soc_lists (w : world) :
  let w' := after (_set_target_soc env self) w in
  ∃ new,
    listeners w' = listeners w ++ (fresh <$> new)
    ∧ _cancel_listeners w'
      = _cancel_listeners w ++ seq (length (listeners w)) (length new)
    ∧ _unload_listeners w'
      = _unload_listeners w ++ seq (length (listeners w)) (length new)
    ∧ (new = [] ∨ ∃ r, forecast env (refreshes w) = Some r ∧ new = armed self r).
Proof.
  destruct (forecast env (refreshes w)) as [r|] eqn:Hr.
  - destruct (set_target_soc_ok env self w r Hr) as (_ & Hl & Hc & Hu & _).
    exists (armed self r). eauto 10.
  - destruct (set_target_soc_raise env self w Hr) as [_ Hw].
    exists []. cbn. rewrite Hw. cbn. rewrite !app_nil_r. auto.
Qed.

(** No operation removes a handle from either list; only
    [_set_target_soc] adds any, the same to both. *)
Lemma perform_lists (w : world) (o : operation) :
  let w' := perform env self w o in
  ∃ hs,
    _cancel_listeners w' = _cancel_listeners w ++ hs
    ∧ _unload_listeners w' = _unload_listeners w ++ hs
    ∧ (o ≠ Call cb_set_target_soc → hs = []).
Proof.
  destruct o as [[]|]; cbv beta iota zeta delta [perform invoke body].
  - destruct (set_target_soc_lists (with_invoked (invoked w ++ [cb_set_target_soc]) w))
      as (new & _ & Hc & Hu & _).
    eexists. split; [exact Hc|]. split; [exact Hu|]. congruence.
  - exists [].
    destruct (stop_hold_after env self
                (with_invoked (invoked w ++ [cb_stop_hold]) w))
      as (_ & Hc & Hu & _).
    rewrite Hc, Hu. cbn. rewrite !app_nil_r. auto.
  - exists []. rewrite start_force_charge_after. cbn. rewrite !app_nil_r. auto.
  - exists [].
    destruct (stop_and_hold_charge_frame env
                (with_invoked (invoked w ++ [cb_stop_and_hold_charge]) w))
      as (_ & Hc & Hu & _).
    rewrite Hc, Hu. cbn. rewrite !app_nil_r. auto.
  - exists []. rewrite unload_after. cbn. rewrite !app_nil_r. auto.
Qed.

(** C1, on the code: [_stop_hold] never removes a handle from the list of
    cycle listeners.  So when the list holds the handle [k] of a state
    listener that was cancelled before, as it does from the second cycle on,
    the loop over the list stops with an exception at [k] at the latest: the
    list is as it was, and every listener whose handle does not stand in
    front of [k] is left as it was, live if it was live. *)
Theorem stop_hold_aborts_without_clearing (w : world) (pre post : list nat)
    (k : nat) (l : listener) :
  _cancel_listeners w = pre ++ k :: post →
  listeners w !! k = Some l → stale l = true →
  let w' := after (_stop_hold env self) w in
  _cancel_listeners w' = _cancel_listeners w
  ∧ raises (_stop_hold env self) w
  ∧ ∀ j, j ∉ pre → listeners w' !! j = listeners w !! j.
Proof.
  intros Hlist Hk Hst. cbv zeta.
  destruct (stop_hold_after env self w) as (Hl & Hc & _).
  destruct (call_handles_abort pre post k (listeners w) l Hk Hst)
    as [Hdone Hkeep].
  rewrite <- Hlist in Hdone, Hkeep.
  split; [exact Hc|]. split.
  - apply stop_hold_raises. by left.
  - intros j Hj. rewrite Hl. by apply Hkeep.
Qed.


End Claims.

(** ** Runs under Home Assistant's clock and sensor *)

Lemma charging_snoc (h : list callback) (cb : callback) :
  charging (h ++ [cb])
  = match cb with
    | cb_start_force_charge => true
    | cb_stop_and_hold_charge => false
    | _ => charging h
    end.
Proof. unfold charging. rewrite fold_left_app. reflexivity. Qed.

Lemma force_charge_pending_snoc (cs : list fox_call) (c : fox_call) :
  force_charge_pending (cs ++ [c])
  = match c with
    | start_force_charge => true
    | stop_force_charge => false
    | set_min_soc _ => force_charge_pending cs
    end.
Proof. unfold force_charge_pending. rewrite fold_left_app. reflexivity. Qed.

Lemma starts_this_cycle_snoc (h : list callback) (cb : callback) :
  starts_this_cycle (h ++ [cb])
  = match cb with
    | cb_set_target_soc => 0
    | cb_start_force_charge => S (starts_this_cycle h)
    | _ => starts_this_cycle h
    end.
Proof. unfold starts_this_cycle. rewrite fold_left_app. reflexivity. Qed.

Section Cycle.

Variable env : environment.
Variable self : config.

(** *** What an invocation does *)

Lemma invoke_set_target_soc (w : world) :
  let w' := invoke env self cb_set_target_soc w in
  ∃ new,
    listeners w' = listeners w ++ (fresh <$> new)
    ∧ _cancel_listeners w'
      = _cancel_listeners w ++ seq (length (listeners w)) (length new)
    ∧ _unload_listeners w'
      = _unload_listeners w ++ seq (length (listeners w)) (length new)
    ∧ (new = [] ∨ ∃ r, new = armed self r)
    ∧ invoked w' = invoked w ++ [cb_set_target_soc]
    ∧ now w' = now w
    ∧ _charge_active w' = _charge_active w
    ∧ fox_calls w' = fox_calls w.
Proof.
  cbv beta iota zeta delta [invoke body].
  set (w0 := with_invoked (invoked w ++ [cb_set_target_soc]) w).
  destruct (forecast env (refreshes w0)) as [r|] eqn:Hr.
  - destruct (set_target_soc_ok env self w0 r Hr)
      as (_ & Hl & Hc & Hu & _ & Ha & Hf & Hi & Hn).
    exists (armed self r). eauto 12.
  - destruct (set_target_soc_raise env self w0 Hr) as [_ Hw].
    exists []. rewrite Hw. cbn. rewrite !app_nil_r. auto 12.
Qed.

Lemma invoke_stop_hold (w : world) :
  let w' := invoke env self cb_stop_hold w in
  let done := (call_handles (_cancel_listeners w) (listeners w)).1 in
  listeners w' = (call_handles (_cancel_listeners w) (listeners w)).2
  ∧ _cancel_listeners w' = _cancel_listeners w
  ∧ _unload_listeners w' = _unload_listeners w
  ∧ invoked w' = invoked w ++ [cb_stop_hold]
  ∧ now w' = now w
  ∧ _charge_active w' = _charge_active w
  ∧ fox_calls w'
    = fox_calls w
      ++ (if done then [set_min_soc (py_mul100 (_original_soc self))]
          else []).
Proof.
  cbv beta iota zeta delta [invoke body].
  destruct (stop_hold_after env self
              (with_invoked (invoked w ++ [cb_stop_hold]) w))
    as (Hl & Hc & Hu & Hi & Hn & Ha & Hf).
  rewrite Hl, Hc, Hu, Hi, Hn, Ha, Hf. cbn. auto 10.
Qed.

Lemma invoke_start_force_charge (w : world) :
  let w' := invoke env self cb_start_force_charge w in
  listeners w' = listeners w
  ∧ _cancel_listeners w' = _cancel_listeners w
  ∧ _unload_listeners w' = _unload_listeners w
  ∧ invoked w' = invoked w ++ [cb_start_force_charge]
  ∧ now w' = now w
  ∧ _charge_active w' = true
  ∧ fox_calls w' = fox_calls w ++ [start_force_charge].
Proof.
  cbv beta iota zeta delta [invoke body]. rewrite start_force_charge_after.
  cbn. auto 10.
Qed.

Lemma invoke_stop_and_hold_charge (w : world) :
  let w' := invoke env self cb_stop_and_hold_charge w in
  listeners w' = listeners w
  ∧ _cancel_listeners w' = _cancel_listeners w
  ∧ _unload_listeners w' = _unload_listeners w
  ∧ invoked w' = invoked w ++ [cb_stop_and_hold_charge]
  ∧ now w' = now w
  ∧ _charge_active w' = false
  ∧ force_charge_pending (fox_calls w')
    = (if _charge_active w then false
       else force_charge_pending (fox_calls w)).
Proof.
  cbv beta iota zeta delta [invoke body].
  unfold after, _stop_and_hold_charge. run_m.
  destruct (_charge_active w) eqn:Ha; cbn;
    repeat (match goal with |- context [fox_fault ?e ?n] =>
              destruct (fox_fault e n) end; cbn);
    unfold force_charge_pending; rewrite ?fold_left_app; cbn; auto 10.
Qed.

Lemma invoke_invoked (cb : callback) (w : world) :
  invoked (invoke env self cb w) = invoked w ++ [cb].
Proof.
  destruct cb.
  - by destruct (invoke_set_target_soc w)
      as (new & _ & _ & _ & _ & -> & _).
  - by destruct (invoke_stop_hold w) as (_ & _ & _ & -> & _).
  - by destruct (invoke_start_force_charge w) as (_ & _ & _ & -> & _).
  - by destruct (invoke_stop_and_hold_charge w) as (_ & _ & _ & -> & _).
Qed.

(** The charge flag follows the invocations and the Fox commands, whatever
    is invoked and in whatever order. *)
Lemma perform_flag_consistent (w : world) (o : operation) :
  flag_consistent w → flag_consistent (perform env self w o).
Proof.
  intros [H1 H2]. unfold flag_consistent. destruct o as [[]|]; cbn [perform].
  - destruct (invoke_set_target_soc w) as (new & _ & _ & _ & _ & -> & _ & -> & ->).
    rewrite charging_snoc. auto.
  - destruct (invoke_stop_hold w) as (_ & _ & _ & -> & _ & -> & ->).
    rewrite charging_snoc. split; [exact H1|].
    destruct (call_handles (_cancel_listeners w) (listeners w)).1.
    + by rewrite force_charge_pending_snoc.
    + by rewrite app_nil_r.
  - destruct (invoke_start_force_charge w) as (_ & _ & _ & -> & _ & -> & ->).
    rewrite charging_snoc, force_charge_pending_snoc. auto.
  - destruct (invoke_stop_and_hold_charge w) as (_ & _ & _ & -> & _ & -> & ->).
    rewrite charging_snoc. split; [reflexivity|].
    rewrite <- H2. destruct (_charge_active w); reflexivity.
  - rewrite unload_after. cbn. auto.
Qed.

(** *** One event, listener by listener *)

Lemma fire_lookup (m : track → bool) (w : world) (k : nat) (l : listener) :
  listeners w !! k = Some l →
  fire env self m w k
  = if live l && m (tracked l)
    then invoke env self (action_of (tracked l)) w else w.
Proof. intros Hk. unfold fire. by rewrite Hk. Qed.

Lemma fold_fire_idle (m : track → bool) (w : world) (ks : list nat) :
  (∀ k, k ∈ ks → idle m w k) → fold_left (fire env self m) ks w = w.
Proof.
  induction ks as [|k ks IH]; intros Hidle; [reflexivity|].
  cbn [fold_left].
  assert (Hk : fire env self m w k = w).
  { unfold fire. destruct (listeners w !! k) as [l|] eqn:El; [|reflexivity].
    rewrite (Hidle k ltac:(left) l El). reflexivity. }
  rewrite Hk. apply IH. intros k' Hk'. apply Hidle. by right.
Qed.

Lemma fold_fire_preserves (P : world → Prop) (m : track → bool)
    (ks : list nat) :
  (∀ w k, P w → P (fire env self m w k)) →
  ∀ w, P w → P (fold_left (fire env self m) ks w).
Proof.
  intros Hstep. induction ks as [|k ks IH]; intros w Hw; [exact Hw|].
  cbn [fold_left]. apply IH, Hstep, Hw.
Qed.

Lemma fire_preserves (P : world → Prop) (m : track → bool) (w : world)
    (k : nat) :
  (∀ w o, P w → P (perform env self w o)) → P w → P (fire env self m w k).
Proof.
  intros Hp Hw. unfold fire. destruct (listeners w !! k) as [l|]; [|exact Hw].
  destruct (live l && m (tracked l)); [|exact Hw].
  apply (Hp w (Call (action_of (tracked l))) Hw).
Qed.

Lemma run_preserves (P : world → Prop) :
  (∀ w t, P w → P (with_now t w)) →
  (∀ w o, P w → P (perform env self w o)) →
  ∀ es w, P w → P (run env self es w).
Proof.
  intros Hnow Hp es. induction es as [|e es IH]; intros w Hw; [exact Hw|].
  cbn [run fold_left]. apply IH. destruct e; cbn [step].
  - unfold tick, dispatch. apply fold_fire_preserves; [|by apply Hnow].
    intros w' k. by apply fire_preserves.
  - unfold state_changed, dispatch. apply fold_fire_preserves; [|exact Hw].
    intros w' k. by apply fire_preserves.
  - apply (Hp w Teardown Hw).
Qed.

Lemma seq_from_two (n : nat) : 2 <= n → seq 0 n = 0 :: 1 :: seq 2 (n - 2).
Proof. intros Hn. destruct n as [|[|n]]; try lia. cbn. by rewrite Nat.sub_0_r. Qed.

Lemma quiet_frame (w w' : world) :
  listeners w' = listeners w → quiet w → quiet w'.
Proof. unfold quiet. intros ->. auto. Qed.

Lemma fold_fire_invoked (m : track → bool) (ks : list nat) (w : world) :
  ∃ suffix, invoked (fold_left (fire env self m) ks w) = invoked w ++ suffix.
Proof.
  revert w. induction ks as [|k ks IH]; intros w.
  - exists []. cbn. by rewrite app_nil_r.
  - cbn [fold_left]. destruct (IH (fire env self m w k)) as (suffix & ->).
    unfold fire. destruct (listeners w !! k) as [l|]; [|eauto].
    destruct (live l && m (tracked l)); [|eauto].
    rewrite invoke_invoked, <- app_assoc. eauto.
Qed.

(** *** The shape of the registry is kept *)

Lemma armed_tracks (new : list track) (t : track) :
  new = [] ∨ (∃ r, new = armed self r) →
  t ∈ new →
  t = start_trigger self ∨ ∃ p, t = soc_watcher self p.
Proof.
  intros [->|[r ->]] Hin; [inversion Hin|].
  unfold armed in Hin.
  destruct (py_gt (charge_total r) (battery_capacity_remaining r));
    cbn in Hin;
    repeat (apply elem_of_cons in Hin as [->|Hin]);
    try (inversion Hin; fail); eauto.
Qed.

Lemma structured_frame (w w' : world) :
  listeners w' = listeners w →
  _cancel_listeners w' = _cancel_listeners w →
  structured self w → structured self w'.
Proof.
  intros Hl Hc [H1 H2 H3 H4]. split; rewrite ?Hl, ?Hc; auto.
Qed.

Lemma structured_two (w : world) :
  structured self w → 2 <= length (listeners w).
Proof.
  intros Hs. destruct (st_release self w Hs) as (l & Hl & _).
  apply lookup_lt_Some in Hl. lia.
Qed.

Lemma structured_call_handles (w w' : world) (hs : list nat) :
  listeners w' = (call_handles hs (listeners w)).2 →
  _cancel_listeners w' = _cancel_listeners w →
  structured self w → structured self w'.
Proof.
  intros Hl Hc [H1 H2 H3 H4]. split; rewrite ?Hl, ?Hc; auto.
  - destruct H1 as (l & Hk & Ht).
    destruct (call_handles_lookup hs _ _ _ Hk) as (l' & Hk' & Ht' & _).
    exists l'. split; [exact Hk' | congruence].
  - destruct H2 as (l & Hk & Ht).
    destruct (call_handles_lookup hs _ _ _ Hk) as (l' & Hk' & Ht' & _).
    exists l'. split; [exact Hk' | congruence].
  - intros k l' Hk Hlk.
    destruct (call_handles_lookup_inv hs _ _ _ Hlk) as (l & Hw & -> & _).
    eauto.
Qed.

Lemma perform_structured (w : world) (o : operation) :
  structured self w → structured self (perform env self w o).
Proof.
  intros Hs. destruct o as [[]|]; cbn [perform].
  - pose proof (structured_two w Hs) as Hlen.
    destruct (invoke_set_target_soc w) as (new & Hl & Hc & _ & Hnew & _).
    destruct Hs as [H1 H2 H3 H4].
    split; rewrite ?Hl, ?Hc.
    + destruct H1 as (l & Hk & Ht). exists l.
      rewrite lookup_app_l by (eapply lookup_lt_Some; eauto). auto.
    + destruct H2 as (l & Hk & Ht). exists l.
      rewrite lookup_app_l by (eapply lookup_lt_Some; eauto). auto.
    + intros k l Hk Hlk. apply lookup_app_Some in Hlk as [Hlk|[Hge Hlk]].
      * eauto.
      * rewrite list_lookup_fmap in Hlk.
        destruct (new !! (k - length (listeners w))) as [t|] eqn:Et;
          [|discriminate].
        injection Hlk as <-. cbn.
        apply (armed_tracks new t Hnew). eapply list_elem_of_lookup_2; eauto.
    + intros k Hk. apply elem_of_app in Hk as [Hk|Hk]; [auto|].
      apply elem_of_seq in Hk. lia.
  - destruct (invoke_stop_hold w) as (Hl & Hc & _).
    by apply (structured_call_handles w _ (_cancel_listeners w)).
  - destruct (invoke_start_force_charge w) as (Hl & Hc & _).
    by apply (structured_frame w).
  - destruct (invoke_stop_and_hold_charge w) as (Hl & Hc & _).
    by apply (structured_frame w).
  - rewrite unload_after.
    by apply (structured_call_handles w _ (_unload_listeners w)).
Qed.

Lemma listener_kind (w : world) (k : nat) (l : listener) :
  structured self w → listeners w !! k = Some l →
  (k = 0 ∧ tracked l = arm_trigger self)
  ∨ (k = 1 ∧ tracked l = release_trigger self)
  ∨ (2 <= k ∧ tracked l = start_trigger self)
  ∨ (2 <= k ∧ ∃ p, tracked l = soc_watcher self p).
Proof.
  intros Hs Hl.
  destruct (st_arm self w Hs) as (l0 & Hl0 & Ht0).
  destruct (st_release self w Hs) as (l1 & Hl1 & Ht1).
  destruct k as [|[|k]].
  - left. rewrite Hl0 in Hl. injection Hl as <-. auto.
  - right. left. rewrite Hl1 in Hl. injection Hl as <-. auto.
  - right. right.
    destruct (st_cycle self w Hs (S (S k)) l ltac:(lia) Hl) as [Ht|Ht];
      [left|right]; split; (lia || exact Ht).
Qed.

(** *** Built or not *)

Lemma run_unbuilt (es : list event) (w : world) :
  unbuilt w → unbuilt (run env self es w).
Proof.
  revert w. induction es as [|e es IH]; intros w Hw; [exact Hw|].
  cbn [run fold_left]. apply IH. destruct Hw as (Hl & Hu & Hc).
  destruct e; cbn [step].
  - unfold tick, dispatch. cbn [listeners with_now]. rewrite Hl. cbn.
    repeat split; assumption.
  - unfold state_changed, dispatch. rewrite Hl. cbn. repeat split; assumption.
  - rewrite unload_after. rewrite Hu. cbn. repeat split; assumption.
Qed.

Lemma construct_built (t0 : Z) (r0 : readings) (boost0 full0 : bool) :
  (5 <= minute (_eco_start_time self))%Z →
  let w := construct self t0 r0 boost0 full0 in
  structured self w ∧ booked w ∧ lifetime_live w.
Proof.
  intros Hm. cbv zeta. unfold construct.
  destruct (init_ok self (blank t0 r0 boost0 full0) Hm)
    as (_ & Hl & Hu & Hc & _).
  cbn in Hl, Hu. split; [|split].
  - split; rewrite ?Hl, ?Hc.
    + eexists. split; reflexivity.
    + eexists. split; reflexivity.
    + intros k l Hk Hlk. destruct k as [|[|k]]; try lia. discriminate Hlk.
    + intros k Hk. inversion Hk.
  - unfold booked. rewrite Hl, Hu, Hc. cbn. auto.
  - unfold lifetime_live. rewrite Hl. do 2 eexists. repeat split; reflexivity.
Qed.

Lemma construct_unbuilt (t0 : Z) (r0 : readings) (boost0 full0 : bool) :
  (minute (_eco_start_time self) < 5)%Z →
  unbuilt (construct self t0 r0 boost0 full0).
Proof.
  intros Hm. unfold construct.
  destruct (init_raise self (blank t0 r0 boost0 full0) Hm)
    as (_ & Hl & Hu & Hc & _).
  split; [|split]; assumption.
Qed.

End Cycle.

(** * Further properties of the methods *)

Section Outcomes.

Variable env : environment.
Variable self : config.

(** ** Failing collaborators *)

Lemma stop_and_hold_charge_calls (w : world) :
  fox_calls (after (_stop_and_hold_charge env) w)
  = fox_calls w
    ++ (if _charge_active w then [stop_force_charge] else [])
    ++ (if stop_fails env w then [] else [set_min_soc (_perc_target w)]).
Proof.
  unfold after, _stop_and_hold_charge, stop_fails. run_m.
  destruct (_charge_active w) eqn:Ha; cbn;
    repeat (match goal with |- context [fox_fault ?e ?n] =>
              destruct (fox_fault e n) end; cbn);
    rewrite <- ?app_assoc; reflexivity.
Qed.

Lemma stop_and_hold_charge_flags (w : world) :
  let w' := after (_stop_and_hold_charge env) w in
  let failed := stop_fails env w || hold_fails env w in
  boost w' = (if failed then boost w else false)
  ∧ full w' = (if failed then full w else false).
Proof.
  unfold after, _stop_and_hold_charge, hold_fails, stop_fails. run_m.
  destruct (_charge_active w) eqn:Ha; cbn;
    rewrite ?length_app; cbn [length]; rewrite ?Nat.add_1_r;
    repeat (match goal with |- context [fox_fault ?e ?n] =>
              destruct (fox_fault e n) eqn:? end; cbn);
    split; reflexivity.
Qed.

(** X1: [_start_force_charge] sets the charge flag before it calls Fox: from
    every state it makes the single call [start_force_charge], it raises
    exactly when that call does, and the flag is set afterwards either way;
    so a [_stop_and_hold_charge] that follows begins by sending
    [stop_force_charge], also after a start that failed. *)
Theorem start_force_charge_sets_flag_first (w : world) :
  let w' := after (_start_force_charge env) w in
  issued (_start_force_charge env) w = [start_force_charge]
  ∧ _charge_active w' = true
  ∧ (raises (_start_force_charge env) w
     ↔ fox_fault env (length (fox_calls w)) = true)
  ∧ ∃ rest,
      issued (_stop_and_hold_charge env) w' = stop_force_charge :: rest.
Proof.
  cbv zeta. rewrite start_force_charge_after.
  split; [|split; [reflexivity|split]].
  - unfold issued. rewrite start_force_charge_after. cbn.
    apply drop_app_length.
  - unfold raises, _start_force_charge. run_m.
    destruct (fox_fault env (length (fox_calls w))); split;
      (reflexivity || discriminate).
  - unfold issued. rewrite stop_and_hold_charge_calls. cbn.
    rewrite drop_app_length. eauto.
Qed.

(** X2: the outcome of [_stop_and_hold_charge] in every case.  It raises
    exactly when its stop call or else its hold call raises; the flag is
    false afterwards in every case; the hold is sent unless the stop raised;
    [boost] and [full] are reset exactly when nothing raised, and keep their
    values otherwise. *)
Theorem stop_and_hold_charge_outcome (w : world) :
  let w' := after (_stop_and_hold_charge env) w in
  let failed := stop_fails env w || hold_fails env w in
  (raises (_stop_and_hold_charge env) w ↔ failed = true)
  ∧ _charge_active w' = false
  ∧ issued (_stop_and_hold_charge env) w
    = (if _charge_active w then [stop_force_charge] else [])
      ++ (if stop_fails env w then [] else [set_min_soc (_perc_target w)])
  ∧ boost w' = (if failed then boost w else false)
  ∧ full w' = (if failed then full w else false).
Proof.
  cbv zeta. split; [|split; [|split]].
  - unfold raises, after, _stop_and_hold_charge, hold_fails, stop_fails.
    run_m.
    destruct (_charge_active w) eqn:Ha; cbn;
      rewrite ?length_app; cbn [length]; rewrite ?Nat.add_1_r;
      repeat (match goal with |- context [fox_fault ?e ?n] =>
                destruct (fox_fault e n) eqn:? end; cbn);
      split; intros; (reflexivity || discriminate).
  - apply stop_and_hold_charge_frame.
  - unfold issued. rewrite stop_and_hold_charge_calls. apply drop_app_length.
  - apply stop_and_hold_charge_flags.
Qed.

(** X3: the outcome of [_stop_hold] in every case.  It raises exactly when
    it made no Fox call (the loop over the handles stopped with an
    exception) or its Fox call raises.  When the handles of the list are
    distinct and none of them belongs to a state listener cancelled before,
    as in the first cycle of a service, the loop runs to its end: the one
    Fox call is the hold at [_original_soc * 100] and every listener of the
    list is cancelled afterwards.  In every case the listeners outside the
    list are as they were, and the list, the flag, the target, [boost] and
    [full] keep their values. *)
Theorem stop_hold_outcome (w : world) :
  let w' := after (_stop_hold env self) w in
  (raises (_stop_hold env self) w
   ↔ issued (_stop_hold env self) w = []
     ∨ fox_fault env (length (fox_calls w)) = true)
  ∧ (NoDup (_cancel_listeners w) →
     (∀ k l, k ∈ _cancel_listeners w → listeners w !! k = Some l →
             stale l = false) →
     issued (_stop_hold env self) w
     = [set_min_soc (py_mul100 (_original_soc self))]
     ∧ cycle_listeners_cancelled w')
  ∧ (∀ k, k ∉ _cancel_listeners w → listeners w' !! k = listeners w !! k)
  ∧ _cancel_listeners w' = _cancel_listeners w
  ∧ _charge_active w' = _charge_active w
  ∧ _perc_target w' = _perc_target w
  ∧ boost w' = boost w
  ∧ full w' = full w.
Proof.
  cbv zeta.
  destruct (stop_hold_after env self w) as (Hl & Hc & _ & _ & _ & Ha & _).
  destruct (stop_hold_state env self w) as (Hp & Hb & Hf).
  split; [|split; [|split]].
  - rewrite stop_hold_raises, stop_hold_issued.
    destruct (call_handles (_cancel_listeners w) (listeners w)).1;
      split; intros [H|H]; auto; discriminate H.
  - intros Hnd Hfresh.
    pose proof (call_handles_fresh _ _ Hnd Hfresh) as Hdone.
    split; [by rewrite stop_hold_issued, Hdone|].
    intros k l Hk Hlk. rewrite Hc in Hk. rewrite Hl in Hlk.
    by apply (call_handles_done_cancelled _ _ k l Hdone Hk).
  - intros k Hk. rewrite Hl. by apply call_handles_other.
  - auto 10.
Qed.

(** X4: the outcome of [_set_target_soc] in every case.  It makes no Fox
    call and leaves the charge flag, [boost] and [full] alone; it raises
    exactly when the forecast refresh raises, and then the registry, both
    lists and the target of the cycle before are all as they were. *)
Theorem set_target_soc_outcome (w : world) :
  let w' := after (_set_target_soc env self) w in
  issued (_set_target_soc env self) w = []
  ∧ _charge_active w' = _charge_active w
  ∧ boost w' = boost w
  ∧ full w' = full w
  ∧ (raises (_set_target_soc env self) w ↔ forecast env (refreshes w) = None)
  ∧ (forecast env (refreshes w) = None →
     listeners w' = listeners w
     ∧ _cancel_listeners w' = _cancel_listeners w
     ∧ _unload_listeners w' = _unload_listeners w
     ∧ _perc_target w' = _perc_target w).
Proof.
  cbv zeta. unfold issued, raises.
  destruct (forecast env (refreshes w)) as [r|] eqn:Hr.
  - destruct (set_target_soc_ok env self w r Hr)
      as ([a Hok] & _ & _ & _ & _ & Ha & Hf & _).
    rewrite Hf, Ha, Hok.
    assert (Hb : boost (after (_set_target_soc env self) w) = boost w
                 ∧ full (after (_set_target_soc env self) w) = full w).
    { unfold after, _set_target_soc. run_m. rewrite Hr. cbn.
      destruct (py_gt (charge_total r) (battery_capacity_remaining r));
        cbn; rewrite ?valid_pattern_time; cbn; auto. }
    destruct Hb as [Hb1 Hb2].
    rewrite <- (app_nil_r (fox_calls w)) at 2. rewrite drop_app_length.
    repeat split; auto; discriminate.
  - destruct (set_target_soc_raise env self w Hr) as [Hraise Hw].
    rewrite Hw. cbn.
    rewrite <- (app_nil_r (fox_calls w)) at 2. rewrite drop_app_length.
    unfold raises in Hraise. repeat split; auto.
Qed.

End Outcomes.

(** ** The watched level *)

Lemma to_int_proper (n : Z) :
  Z.to_int n ≠ Decimal.Pos Decimal.Nil ∧ Z.to_int n ≠ Decimal.Neg Decimal.Nil.
Proof.
  destruct n as [|p|p]; cbn; split; try discriminate;
    intros [= H]; exact (Unsigned.to_uint_nonnil p H).
Qed.

Lemma py_str_inj (a b : Z) : py_str a = py_str b → a = b.
Proof.
  unfold py_str. intros H. apply (f_equal NilZero.int_of_string) in H.
  destruct (to_int_proper a) as [Ha1 Ha2], (to_int_proper b) as [Hb1 Hb2].
  rewrite !NilZero.isi in H by assumption.
  injection H as H. by apply DecimalZ.to_int_inj.
Qed.

Section Watcher.

Variable self : config.

(** X5: the SoC watcher is an equality watch on the truncated target.  A
    change of the configured sensor to the decimal numeral of an integer [n]
    matches the watcher for the target [p] exactly when [n = int(p)], from
    whatever old state; and two targets give the same watcher exactly when
    they truncate to the same integer. *)
Theorem soc_watcher_matches_truncated_integer (p q : number) (n : Z)
    (old_state : string) :
  (state_matches (_battery_soc self) old_state (py_str n) (soc_watcher self p)
   = true ↔ n = py_int p)
  ∧ (soc_watcher self p = soc_watcher self q ↔ py_int p = py_int q).
Proof.
  split.
  - cbn. rewrite String.eqb_refl. cbn. rewrite String.eqb_eq.
    split; [intros H; symmetry; by apply py_str_inj | by intros ->].
  - unfold soc_watcher. split; [|by intros ->].
    intros [= H]. by apply py_str_inj.
Qed.

(** X6: for a target that is not negative, the level the watcher waits for
    is not negative, is at most the target and lies less than one below it:
    the watch is on the floor of the target. *)
Theorem watched_level_is_floor (p : number) :
  (0 <= to_Q p)%Q →
  (0 <= py_int p)%Z
  ∧ (inject_Z (py_int p) <= to_Q p)%Q
  ∧ (to_Q p < inject_Z (py_int p + 1))%Q.
Proof.
  destruct p as [z|[n d]]; cbn; unfold Qle, Qlt; cbn; intros H.
  - lia.
  - assert (Hn : (0 <= n)%Z) by lia.
    rewrite Z.quot_div_nonneg by lia.
    pose proof (Z.div_mod n (Z.pos d) ltac:(lia)) as Hdiv.
    pose proof (Z.mod_pos_bound n (Z.pos d) ltac:(lia)) as Hmod.
    pose proof (Z.div_pos n (Z.pos d) Hn ltac:(lia)) as Hq.
    repeat split; nia.
Qed.

End Watcher.

(** * Further properties of the runs *)

Section Runs.

Variable env : environment.
Variable self : config.

Lemma perform_registry_length (w : world) (o : operation) :
  o ≠ Call cb_set_target_soc →
  length (listeners (perform env self w o)) = length (listeners w).
Proof.
  intros Ho. destruct o as [[]|]; cbv beta iota zeta delta [perform];
    try congruence.
  - destruct (invoke_stop_hold env self w) as (-> & _).
    apply call_handles_length.
  - by destruct (invoke_start_force_charge env self w) as (-> & _).
  - by destruct (invoke_stop_and_hold_charge env self w) as (-> & _).
  - rewrite unload_after. cbn. apply call_handles_length.
Qed.

Lemma construct_untouched (t0 : Z) (r0 : readings) (boost0 full0 : bool) :
  let w := construct self t0 r0 boost0 full0 in
  _charge_active w = false ∧ invoked w = [] ∧ fox_calls w = [].
Proof.
  cbv zeta. unfold construct, after, __init__, UnloadController__init__.
  run_m. rewrite valid_pattern_arm.
  destruct (5 <=? minute (_eco_start_time self))%Z; cbn;
    rewrite ?valid_pattern_time; cbn; auto.
Qed.

(** ** The two lists along a run *)

Lemma perform_booked (w : world) (o : operation) :
  booked w → booked (perform env self w o).
Proof.
  intros (Hlen & Hu & Hc).
  assert (Hcases : o = Call cb_set_target_soc ∨ o ≠ Call cb_set_target_soc)
    by (destruct o as [[]|]; (by left) || (right; discriminate)).
  destruct Hcases as [->|Ho].
  - cbv beta iota zeta delta [perform].
    destruct (invoke_set_target_soc env self w)
      as (new & Hl & Hc' & Hu' & _).
    unfold booked. rewrite Hl, Hc', Hu', Hu, Hc, length_app, length_fmap.
    split; [lia|]. split.
    + by rewrite seq_app.
    + replace (length (listeners w) + length new - 2)
        with ((length (listeners w) - 2) + length new) by lia.
      rewrite seq_app. do 2 f_equal. lia.
  - destruct (perform_lists env self w o) as (hs & Hc' & Hu' & Hhs).
    rewrite (Hhs Ho), app_nil_r in Hc', Hu'.
    unfold booked. rewrite Hc', Hu', (perform_registry_length w o Ho). auto.
Qed.

(** X7: in every state a run brings the service to, the list of unload
    listeners is exactly the handles of all listeners ever registered, each
    once and in the order of registration, and the list of cycle listeners
    is exactly those of them registered after the two of [__init__]. *)
Theorem lists_book_every_registration (es : list event) (t0 : Z)
    (r0 : readings) (boost0 full0 : bool) :
  let w := run env self es (construct self t0 r0 boost0 full0) in
  _unload_listeners w = seq 0 (length (listeners w))
  ∧ _cancel_listeners w = seq 2 (length (listeners w) - 2).
Proof.
  cbv zeta.
  destruct (Z.le_gt_cases 5 (minute (_eco_start_time self))) as [Hm|Hm].
  - assert (H : booked (run env self es (construct self t0 r0 boost0 full0))).
    { apply (run_preserves env self booked).
      - intros w t Hw. exact Hw.
      - apply perform_booked.
      - by apply construct_built. }
    destruct H as (_ & Hu & Hc). auto.
  - destruct (run_unbuilt env self es _
                (construct_unbuilt self t0 r0 boost0 full0 Hm))
      as (Hl & Hu & Hc).
    rewrite Hl, Hu, Hc. auto.
Qed.

(** ** Stops and starts *)

Lemma stops_follow_starts_snoc (cs : list fox_call) (c : fox_call) :
  stops_follow_starts cs →
  (c = stop_force_charge → force_charge_pending cs = true) →
  stops_follow_starts (cs ++ [c]).
Proof.
  intros Hcs Hc before later E.
  destruct later as [|x later _] using rev_ind.
  - apply app_inj_tail in E as [-> ->]. by apply Hc.
  - rewrite app_comm_cons, app_assoc in E.
    apply app_inj_tail in E as [E _]. by apply (Hcs before later).
Qed.

Lemma perform_fox_sound (w : world) (o : operation) :
  fox_sound w → fox_sound (perform env self w o).
Proof.
  intros [Hf Hs]. split; [by apply perform_flag_consistent|].
  destruct Hf as [_ Hp].
  destruct o as [[]|]; cbv beta iota zeta delta [perform].
  - by destruct (invoke_set_target_soc env self w)
      as (new & _ & _ & _ & _ & _ & _ & _ & ->).
  - destruct (invoke_stop_hold env self w) as (_ & _ & _ & _ & _ & _ & ->).
    destruct (call_handles (_cancel_listeners w) (listeners w)).1.
    + apply stops_follow_starts_snoc; [exact Hs | discriminate].
    + by rewrite app_nil_r.
  - destruct (invoke_start_force_charge env self w)
      as (_ & _ & _ & _ & _ & _ & ->).
    apply stops_follow_starts_snoc; [exact Hs | discriminate].
  - unfold invoke. cbn [body]. rewrite stop_and_hold_charge_calls. cbn.
    destruct (_charge_active w) eqn:Ha; cbn.
    + destruct (stop_fails env _).
      * apply stops_follow_starts_snoc; [exact Hs | by rewrite <- Hp].
      * change [stop_force_charge; set_min_soc (_perc_target w)]
          with ([stop_force_charge] ++ [set_min_soc (_perc_target w)]).
        rewrite app_assoc.
        apply stops_follow_starts_snoc; [|discriminate].
        apply stops_follow_starts_snoc; [exact Hs | by rewrite <- Hp].
    + destruct (stop_fails env _); cbn.
      * by rewrite app_nil_r.
      * apply stops_follow_starts_snoc; [exact Hs | discriminate].
  - rewrite unload_after. exact Hs.
Qed.

Lemma run_fox_sound (es : list event) (t0 : Z) (r0 : readings)
    (boost0 full0 : bool) :
  fox_sound (run env self es (construct self t0 r0 boost0 full0)).
Proof.
  apply (run_preserves env self fox_sound).
  - intros w t Hw. exact Hw.
  - apply perform_fox_sound.
  - destruct (construct_untouched t0 r0 boost0 full0) as (Ha & Hi & Hf).
    split; [split|]; rewrite ?Ha, ?Hi, ?Hf; try reflexivity.
    intros before later E. symmetry in E.
    apply app_eq_nil in E as [_ E]. discriminate E.
Qed.

(** X8: along every run, the service sends [stop_force_charge] to Fox only
    while a start it sent is pending: before every stop in the log the last
    force-charge command is a start. *)
Theorem stop_sent_only_after_start (es : list event) (t0 : Z)
    (r0 : readings) (boost0 full0 : bool) :
  stops_follow_starts
    (fox_calls (run env self es (construct self t0 r0 boost0 full0))).
Proof. exact (proj2 (run_fox_sound es t0 r0 boost0 full0)). Qed.

(** X14: along every run, the charge flag is the record of the force
    charge: it is set exactly when the last of the invocations of
    [_start_force_charge] and [_stop_and_hold_charge] is a start, and
    exactly when the last force-charge command sent to Fox is a start. *)
Theorem charge_flag_tracks_force_charge (es : list event) (t0 : Z)
    (r0 : readings) (boost0 full0 : bool) :
  let w := run env self es (construct self t0 r0 boost0 full0) in
  _charge_active w = charging (invoked w)
  ∧ _charge_active w = force_charge_pending (fox_calls w).
Proof. exact (proj1 (run_fox_sound es t0 r0 boost0 full0)). Qed.

(** ** The shape of the registry along a run *)

Lemma run_structured (es : list event) (t0 : Z) (r0 : readings)
    (boost0 full0 : bool) :
  (5 <= minute (_eco_start_time self))%Z →
  structured self (run env self es (construct self t0 r0 boost0 full0)).
Proof.
  intros Hm. apply (run_preserves env self (structured self)).
  - intros w t Hw. by apply (structured_frame self w).
  - apply perform_structured.
  - by apply construct_built.
Qed.

(** ** The sensor *)

Lemma state_dispatch_shape (entity old_state new_state : string)
    (ks : list nat) (w : world) :
  structured self w →
  let w' :=
    fold_left (fire env self (state_matches entity old_state new_state)) ks w
  in
  ∃ n, invoked w' = invoked w ++ repeat cb_stop_and_hold_charge n
       ∧ listeners w' = listeners w
       ∧ _cancel_listeners w' = _cancel_listeners w
       ∧ _unload_listeners w' = _unload_listeners w
       ∧ now w' = now w.
Proof.
  revert w. induction ks as [|k ks IH]; intros w Hs.
  - exists 0. cbn. rewrite app_nil_r. auto.
  - cbn [fold_left]. cbv zeta.
    destruct (listeners w !! k) as [l|] eqn:El.
    2:{ assert (Hk : fire env self
                      (state_matches entity old_state new_state) w k = w)
          by (unfold fire; by rewrite El).
        rewrite Hk. by apply IH. }
    rewrite (fire_lookup env self _ w k l El).
    destruct (live l && state_matches entity old_state new_state (tracked l))
      eqn:Ef; [|by apply IH].
    apply andb_true_iff in Ef as [_ Hm].
    destruct (listener_kind self w k l Hs El)
      as [[_ Ht]|[[_ Ht]|[[_ Ht]|[_ [p Ht]]]]]; rewrite Ht in *;
      try discriminate Hm.
    cbn [action_of soc_watcher].
    destruct (invoke_stop_and_hold_charge env self w)
      as (Hl & Hc & Hu & Hi & Hn & _).
    destruct (IH (invoke env self cb_stop_and_hold_charge w))
      as (n & Hi' & Hl' & Hc' & Hu' & Hn').
    { by apply (structured_frame self w). }
    exists (S n). rewrite Hi', Hl', Hc', Hu', Hn', Hi, <- app_assoc. auto.
Qed.

(** X9: what a change of a sensor state can do, in every state a run brings
    the service to.  It can only invoke [_stop_and_hold_charge]; it never
    changes the registry, the two lists or the clock; and it does nothing
    at all when the entity is not the configured sensor, or when no cycle
    listener is live. *)
Theorem state_change_only_stops_and_holds (es : list event) (t0 : Z)
    (r0 : readings) (boost0 full0 : bool)
    (entity old_state new_state : string) :
  let w := run env self es (construct self t0 r0 boost0 full0) in
  let w' := state_changed env self entity old_state new_state w in
  (∃ n, invoked w' = invoked w ++ repeat cb_stop_and_hold_charge n
        ∧ listeners w' = listeners w
        ∧ _cancel_listeners w' = _cancel_listeners w
        ∧ _unload_listeners w' = _unload_listeners w
        ∧ now w' = now w)
  ∧ (entity ≠ _battery_soc self → w' = w)
  ∧ (quiet w → w' = w).
Proof.
  cbv zeta.
  set (w := run env self es (construct self t0 r0 boost0 full0)).
  destruct (Z.le_gt_cases 5 (minute (_eco_start_time self))) as [Hm|Hm].
  - assert (Hs : structured self w) by (by apply run_structured).
    split; [|split].
    + apply state_dispatch_shape, Hs.
    + intros Hne. apply fold_fire_idle. intros k _ l El.
      destruct (listener_kind self w k l Hs El)
        as [[_ Ht]|[[_ Ht]|[[_ Ht]|[_ [p Ht]]]]]; rewrite Ht; cbn;
        rewrite ?andb_false_r; try reflexivity.
      assert (He : String.eqb (_battery_soc self) entity = false)
        by (apply String.eqb_neq; congruence).
      rewrite He. cbn. apply andb_false_r.
    + intros Hq. apply fold_fire_idle. intros k _ l El.
      destruct (listener_kind self w k l Hs El)
        as [[_ Ht]|[[_ Ht]|[[H2 _]|[H2 _]]]];
        try (rewrite Ht; cbn; apply andb_false_r);
        by rewrite (Hq k l H2 El).
  - destruct (run_unbuilt env self es _
                (construct_unbuilt self t0 r0 boost0 full0 Hm))
      as (Hl & _).
    fold w in Hl.
    assert (E : state_changed env self entity old_state new_state w = w)
      by (unfold state_changed, dispatch; by rewrite Hl).
    rewrite E. split; [|auto]. exists 0. cbn. rewrite app_nil_r. auto.
Qed.

(** ** The daily triggers *)

Lemma fire_alive (m : track → bool) (w : world) (k : nat) :
  alive self w → alive self (fire env self m w k).
Proof.
  intros [Hs Hlive]. split.
  { apply fire_preserves; [apply perform_structured | exact Hs]. }
  destruct Hlive as (l0 & l1 & Hl0 & Hlive0 & Hl1 & Hlive1).
  unfold lifetime_live, fire. destruct (listeners w !! k) as [l|] eqn:El;
    [|exists l0, l1; auto].
  destruct (live l && m (tracked l)); [|exists l0, l1; auto].
  destruct (action_of (tracked l)).
  - destruct (invoke_set_target_soc env self w) as (new & -> & _).
    exists l0, l1.
    rewrite !lookup_app_l by (eapply lookup_lt_Some; eauto). auto.
  - destruct (invoke_stop_hold env self w) as (-> & _).
    exists l0, l1.
    rewrite !call_handles_other; auto;
      intros Hin; apply (st_cancel self w Hs) in Hin; lia.
  - destruct (invoke_start_force_charge env self w) as (-> & _).
    exists l0, l1. auto.
  - destruct (invoke_stop_and_hold_charge env self w) as (-> & _).
    exists l0, l1. auto.
Qed.

Lemma run_alive (es : list event) (w : world) :
  Forall (fun e => e ≠ Unload) es →
  alive self w → alive self (run env self es w).
Proof.
  intros Hes. revert w. induction Hes as [|e es He _ IH]; intros w Hw;
    [exact Hw|].
  cbn [run fold_left]. apply IH. destruct e; cbn [step]; [| |congruence].
  - unfold tick, dispatch. apply fold_fire_preserves.
    + intros w' k. apply fire_alive.
    + destruct Hw as [Hs Hl]. split; [by apply (structured_frame self w)|].
      exact Hl.
  - unfold state_changed, dispatch. apply fold_fire_preserves; [|exact Hw].
    intros w' k. apply fire_alive.
Qed.

(** X10: a service whose eco period starts at minute 5 or later is built,
    and as long as it is not unloaded the two listeners of [__init__] stay
    live, whatever the clock and the sensor do.  In such a state, the
    minute whose hour and minute are the ones [__init__] registered for
    [_set_target_soc] begins by invoking it, and the minute at which the
    clock reads the end of the eco period invokes [_stop_hold]. *)
Theorem daily_triggers_fire (es : list event) (t0 : Z) (r0 : readings)
    (boost0 full0 : bool) :
  (5 <= minute (_eco_start_time self))%Z →
  Forall (fun e => e ≠ Unload) es →
  let w := run env self es (construct self t0 r0 boost0 full0) in
  let t := (now w + 1)%Z in
  lifetime_live w
  ∧ (wall_hour t = hour (_eco_start_time self)
     ∧ wall_minute t = (minute (_eco_start_time self) - 5)%Z →
     ∃ rest, invoked (tick env self w) = invoked w ++ cb_set_target_soc :: rest)
  ∧ (clock_reads t (_eco_end_time self) →
     ∃ before later,
       invoked (tick env self w)
       = invoked w ++ before ++ cb_stop_hold :: later).
Proof.
  intros Hm Hes. cbv zeta.
  set (w := run env self es (construct self t0 r0 boost0 full0)).
  set (t := (now w + 1)%Z).
  assert (Hw : alive self w).
  { apply run_alive; [exact Hes|].
    destruct (construct_built self t0 r0 boost0 full0 Hm) as (Hs & _ & Hl).
    by split. }
  destruct Hw as [Hs Hlive]. split; [exact Hlive|].
  set (w1 := with_now t w).
  assert (Hw1 : alive self w1)
    by (split; [by apply (structured_frame self w) | exact Hlive]).
  pose proof (structured_two self w Hs) as Hlen.
  unfold tick, dispatch. fold t w1. cbn [listeners with_now w1].
  rewrite (seq_from_two _ Hlen). cbn [fold_left].
  split.
  - intros [Hh Hmin].
    destruct Hlive as (l0 & l1 & Hl0 & Hlive0 & _).
    destruct (st_arm self w Hs) as (l0' & Hl0' & Ht0).
    rewrite Hl0 in Hl0'. injection Hl0' as <-.
    rewrite (fire_lookup env self _ w1 0 l0 Hl0), Ht0, Hlive0.
    assert (Hmt : time_matches t (arm_trigger self) = true).
    { apply time_matches_valid. by split. }
    rewrite Hmt. cbn [andb action_of arm_trigger].
    destruct (fold_fire_invoked env self (time_matches t)
                (1 :: seq 2 (length (listeners w) - 2))
                (invoke env self cb_set_target_soc w1)) as (suffix & Hsuf).
    cbn [fold_left] in Hsuf. rewrite Hsuf, invoke_invoked, <- app_assoc.
    eauto.
  - intros Ht.
    set (wA := fire env self (time_matches t) w1 0).
    assert (HwA : alive self wA) by (by apply fire_alive).
    destruct HwA as [HsA (l0 & l1 & _ & _ & Hl1 & Hlive1)].
    destruct (st_release self wA HsA) as (l1' & Hl1' & Ht1).
    rewrite Hl1 in Hl1'. injection Hl1' as <-.
    rewrite (fire_lookup env self _ wA 1 l1 Hl1), Ht1, Hlive1.
    assert (Hmt : time_matches t (release_trigger self) = true).
    { apply time_matches_valid. exact Ht. }
    rewrite Hmt. cbn [andb action_of release_trigger].
    destruct (fold_fire_invoked env self (time_matches t) [0] w1)
      as (before & Hbefore).
    cbn [fold_left] in Hbefore. fold wA in Hbefore.
    destruct (fold_fire_invoked env self (time_matches t)
                (seq 2 (length (listeners w) - 2))
                (invoke env self cb_stop_hold wA)) as (later & Hlater).
    rewrite Hlater, invoke_invoked, Hbefore.
    exists before, later. by rewrite <- !app_assoc.
Qed.

(** X13: the clock does nothing outside three minutes of the day.  In
    every state a run brings the service to, a minute that matches neither
    the trigger of [_set_target_soc], nor the one of [_stop_hold], nor the
    one of [_start_force_charge] only advances the clock: nothing is
    invoked, and in particular the clock alone never invokes
    [_stop_and_hold_charge]. *)
Theorem idle_minute_only_advances_clock (es : list event) (t0 : Z)
    (r0 : readings) (boost0 full0 : bool) :
  let w := run env self es (construct self t0 r0 boost0 full0) in
  let t := (now w + 1)%Z in
  time_matches t (arm_trigger self) = false →
  time_matches t (release_trigger self) = false →
  time_matches t (start_trigger self) = false →
  tick env self w = with_now t w.
Proof.
  cbv zeta.
  set (w := run env self es (construct self t0 r0 boost0 full0)).
  intros Ha Hr Hst.
  destruct (Z.le_gt_cases 5 (minute (_eco_start_time self))) as [Hm|Hm].
  - assert (Hs : structured self (with_now (now w + 1) w)).
    { apply (structured_frame self w); auto. by apply run_structured. }
    unfold tick, dispatch. apply fold_fire_idle. intros k _ l El.
    destruct (listener_kind self _ k l Hs El)
      as [[_ Ht]|[[_ Ht]|[[_ Ht]|[_ [p Ht]]]]]; rewrite Ht;
      rewrite ?Ha, ?Hr, ?Hst; apply andb_false_r.
  - destruct (run_unbuilt env self es _
                (construct_unbuilt self t0 r0 boost0 full0 Hm))
      as (Hl & _).
    fold w in Hl. unfold tick, dispatch. cbn [listeners with_now].
    by rewrite Hl.
Qed.

(** ** Whole cycles *)

Lemma fresh_cycle_handles (ls : list listener) (new : list track) :
  (call_handles (seq (length ls) (length new)) (ls ++ (fresh <$> new))).1
  = true.
Proof.
  apply call_handles_fresh; [apply NoDup_seq|].
  intros k l Hk Hl. apply elem_of_seq in Hk.
  rewrite lookup_app_r in Hl by lia. rewrite list_lookup_fmap in Hl.
  destruct (new !! (k - length ls)) as [t|]; [|discriminate].
  injection Hl as <-. unfold stale. cbn. apply andb_false_r.
Qed.

(** X11: the first cycle of a service, in which charge is needed and
    nothing fails.  From a state whose list of cycle listeners is empty,
    with a successful refresh answering [r] and a Fox service that does not
    raise, the four callbacks in the order of the day send to Fox exactly:
    the start, the stop, the hold at the target the battery controller
    answered (as answered, not truncated), and the hold at
    [_original_soc * 100]; afterwards the flag, [boost] and [full] are false
    and no cycle listener is live. *)
Theorem charging_cycle_commands (w : world) (r : readings) :
  _cancel_listeners w = [] →
  forecast env (refreshes w) = Some r →
  (∀ k, fox_fault env k = false) →
  let w' :=
    fold_left (perform env self)
      [Call cb_set_target_soc; Call cb_start_force_charge;
       Call cb_stop_and_hold_charge; Call cb_stop_hold] w in
  fox_calls w'
  = fox_calls w
    ++ [start_force_charge; stop_force_charge;
        set_min_soc (charge_to_perc r);
        set_min_soc (py_mul100 (_original_soc self))]
  ∧ _charge_active w' = false
  ∧ boost w' = false
  ∧ full w' = false
  ∧ cycle_listeners_cancelled w'.
Proof.
  intros Hnil Hr Hfox. cbn [fold_left perform]. unfold invoke. cbn [body].
  set (w0 := with_invoked (invoked w ++ [cb_set_target_soc]) w).
  destruct (set_target_soc_ok env self w0 r Hr)
    as (_ & Hl1 & Hc1 & _ & Hp & _ & Hf & _).
  set (w1 := after (_set_target_soc env self) w0) in *.
  rewrite start_force_charge_after.
  set (w2 := with_fox_calls _ _).
  set (w2' := with_invoked _ w2).
  assert (Hs : stop_fails env w2' = false)
    by (unfold stop_fails; rewrite Hfox; apply andb_false_r).
  assert (Hh : hold_fails env w2' = false)
    by (unfold hold_fails; rewrite Hfox; apply andb_false_r).
  pose proof (stop_and_hold_charge_calls env w2') as Hc.
  destruct (stop_and_hold_charge_flags env w2') as [Hb Hfu].
  destruct (stop_and_hold_charge_frame env w2') as (Hl3 & Hc3 & _ & Ha & _).
  rewrite Hs in Hc. rewrite Hs, Hh in Hb, Hfu. cbn in Hb, Hfu.
  set (w3 := after (_stop_and_hold_charge env) w2') in *.
  set (w3' := with_invoked _ w3).
  assert (Hdone :
    (call_handles (_cancel_listeners w3') (listeners w3')).1 = true).
  { change (_cancel_listeners w3') with (_cancel_listeners w3).
    change (listeners w3') with (listeners w3).
    rewrite Hl3, Hc3.
    change (listeners w2') with (listeners w1).
    change (_cancel_listeners w2') with (_cancel_listeners w1).
    rewrite Hl1, Hc1.
    change (_cancel_listeners w0) with (_cancel_listeners w).
    rewrite Hnil. apply fresh_cycle_handles. }
  destruct (stop_hold_after env self w3')
    as (Hl4 & Hc4 & _ & _ & _ & Ha4 & Hf4).
  destruct (stop_hold_state env self w3') as (_ & Hb4 & Hfu4).
  rewrite Hdone in Hf4.
  split; [|split; [|split; [|split]]].
  - rewrite Hf4. change (fox_calls w3') with (fox_calls w3).
    rewrite Hc. cbn. rewrite Hp, Hf. rewrite <- !app_assoc. reflexivity.
  - rewrite Ha4. exact Ha.
  - rewrite Hb4. exact Hb.
  - rewrite Hfu4. exact Hfu.
  - intros k l Hk Hlk. rewrite Hc4 in Hk. rewrite Hl4 in Hlk.
    by apply (call_handles_done_cancelled _ _ k l Hdone Hk).
Qed.

(** X12: a first cycle in which the sensor never reports the watched
    level.  From a state whose list of cycle listeners is empty and
    whatever fails, arming, starting and releasing send to Fox the start
    and the hold at [_original_soc * 100] and no stop; the charge flag is
    still set after the release although no cycle listener is live; and
    the start of the next cycle is sent with the first one never
    stopped. *)
Theorem unstopped_charge_outlives_release (w : world) :
  _cancel_listeners w = [] →
  let day1 :=
    fold_left (perform env self)
      [Call cb_set_target_soc; Call cb_start_force_charge; Call cb_stop_hold]
      w in
  let day2 :=
    fold_left (perform env self)
      [Call cb_set_target_soc; Call cb_start_force_charge] day1 in
  fox_calls day1
  = fox_calls w
    ++ [start_force_charge; set_min_soc (py_mul100 (_original_soc self))]
  ∧ _charge_active day1 = true
  ∧ cycle_listeners_cancelled day1
  ∧ fox_calls day2
    = fox_calls w
      ++ [start_force_charge; set_min_soc (py_mul100 (_original_soc self));
          start_force_charge].
Proof.
  intros Hnil. cbv zeta. cbn [fold_left perform].
  set (w1 := invoke env self cb_set_target_soc w).
  set (w2 := invoke env self cb_start_force_charge w1).
  set (w3 := invoke env self cb_stop_hold w2).
  set (w4 := invoke env self cb_set_target_soc w3).
  destruct (invoke_set_target_soc env self w)
    as (new & Hl1 & Hc1 & _ & _ & _ & _ & _ & Hf1).
  destruct (invoke_start_force_charge env self w1)
    as (Hl2 & Hc2 & _ & _ & _ & Ha2 & Hf2).
  fold w1 in Hl1, Hc1, Hf1. fold w2 in Hl2, Hc2, Ha2, Hf2.
  assert (Hdone :
    (call_handles (_cancel_listeners w2) (listeners w2)).1 = true).
  { rewrite Hl2, Hc2, Hl1, Hc1, Hnil. apply fresh_cycle_handles. }
  destruct (invoke_stop_hold env self w2)
    as (Hl3 & Hc3 & _ & _ & _ & Ha3 & Hf3).
  destruct (invoke_set_target_soc env self w3)
    as (new' & _ & _ & _ & _ & _ & _ & _ & Hf4).
  destruct (invoke_start_force_charge env self w4)
    as (_ & _ & _ & _ & _ & _ & Hf5).
  fold w3 in Hl3, Hc3, Ha3, Hf3. fold w4 in Hf4.
  rewrite Hdone in Hf3.
  assert (H3 : fox_calls w3
               = fox_calls w
                 ++ [start_force_charge;
                     set_min_soc (py_mul100 (_original_soc self))]).
  { rewrite Hf3, Hf2, Hf1, <- app_assoc. reflexivity. }
  split; [exact H3|]. split; [congruence|]. split.
  - intros k l Hk Hlk. rewrite Hc3 in Hk. rewrite Hl3 in Hlk.
    by apply (call_handles_done_cancelled _ _ k l Hdone Hk).
  - rewrite Hf5, Hf4, H3, <- app_assoc. reflexivity.
Qed.

End Runs.

(** * The statements at concrete inputs *)

(** C9: at most one force charge is active, because at most one start
    trigger is ever armed: the code does not keep to it from the third day
    on.  With the eco period from 02:30 to 05:00, charge needed every day
    and the sensor never reporting the watched level, the [_stop_hold] of
    the second day stops at the watcher of the first day, cancelled the day
    before, and leaves the start trigger of the second day live; at 02:30
    of the third day two start triggers are live, [_start_force_charge] has
    run twice since the last [_set_target_soc] and has sent two starts to
    Fox, and the hold of the second day was never restored. *)
Theorem second_start_trigger_stays_live :
  invoked third_day_0230
  = [cb_set_target_soc; cb_start_force_charge; cb_stop_hold;
     cb_set_target_soc; cb_start_force_charge; cb_stop_hold;
     cb_set_target_soc; cb_start_force_charge; cb_start_force_charge]
  ∧ live_start_handles third_day_0230 = [4; 6]
  ∧ starts_this_cycle (invoked third_day_0230) = 2
  ∧ fox_calls third_day_0230
    = [start_force_charge; set_min_soc (PyInt 2000); start_force_charge;
       start_force_charge; start_force_charge].
Proof. repeat split; vm_compute; reflexivity. Qed.

Lemma arm_trigger_minute_underflow_witness :
  valid_time (_eco_start_time eco_0200_0500)
  ∧ (minute (_eco_start_time eco_0200_0500) < 5)%Z
  ∧ raises (__init__ eco_0200_0500) (blank 0 no_readings false false)
  ∧ registered (__init__ eco_0200_0500) (blank 0 no_readings false false)
    = []
  ∧ time_matches 115 (arm_trigger eco_0200_0500) = false
  ∧ clock_reads (115 + 5) (_eco_start_time eco_0200_0500).
Proof.
  assert (Hv : valid_time (_eco_start_time eco_0200_0500))
    by (split; cbn; lia).
  assert (Hlt : (minute (_eco_start_time eco_0200_0500) < 5)%Z)
    by (cbn; lia).
  destruct (arm_trigger_minute_underflow eco_0200_0500
              (blank 0 no_readings false false) Hv Hlt)
    as ((H1 & H1') & H2 & _).
  split; [exact Hv|]. split; [exact Hlt|]. split; [exact H1|].
  split; [exact H1'|]. split; [apply H2|]. split; reflexivity.
Defined.

Lemma start_trigger_iff_capacity_needed_witness :
  forecast calm (refreshes midnight) = Some short_of_charge
  ∧ registered (_set_target_soc calm eco_0230_0500) midnight
    = [fresh (start_trigger eco_0230_0500);
       fresh (soc_watcher eco_0230_0500 (charge_to_perc short_of_charge))].
Proof.
  split; [reflexivity|].
  destruct (start_trigger_iff_capacity_needed calm eco_0230_0500 midnight
              short_of_charge eq_refl) as (_ & H & _).
  apply H. reflexivity.
Defined.

Lemma soc_watcher_not_rounded :
  registered (_set_target_soc calm eco_0230_0500) midnight
  = [fresh (utc_time_change cb_start_force_charge 2 30 0);
     fresh (state_change "sensor.battery_soc" cb_stop_and_hold_charge None
              (Some "79"))]
  ∧ py_str (spec_round (charge_to_perc short_of_charge)) = "80".
Proof. split; vm_compute; reflexivity. Qed.

Lemma stop_and_hold_charge_commands_witness :
  completes (_stop_and_hold_charge calm) charging_at_0230
  ∧ issued (_stop_and_hold_charge calm) charging_at_0230
    = [stop_force_charge; set_min_soc (PyFloat (319 # 4))].
Proof.
  assert (H : completes (_stop_and_hold_charge calm) charging_at_0230)
    by (exists tt; reflexivity).
  split; [exact H|].
  exact (proj1 (stop_and_hold_charge_commands calm charging_at_0230 H)).
Defined.

Lemma flag_cleared_before_failed_stop :
  _charge_active charging_at_0230 = true
  ∧ raises (_stop_and_hold_charge second_call_fails) charging_at_0230
  ∧ _charge_active
      (after (_stop_and_hold_charge second_call_fails) charging_at_0230)
    = false.
Proof. repeat split; vm_compute; reflexivity. Qed.

Lemma stop_failure_propagates_witness :
  _charge_active charging_at_0230 = true
  ∧ fox_fault second_call_fails (length (fox_calls charging_at_0230)) = true
  ∧ raises (_stop_and_hold_charge second_call_fails) charging_at_0230
  ∧ issued (_stop_and_hold_charge second_call_fails) charging_at_0230
    = [stop_force_charge].
Proof.
  destruct (stop_failure_propagates second_call_fails charging_at_0230
              eq_refl eq_refl) as (H1 & _ & H2 & _).
  split; [reflexivity|]. split; [reflexivity|]. split; [exact H1 | exact H2].
Defined.

(** The end of the second day: the watcher of the first day, cancelled the
    day before, stands second in the list. *)
Lemma stop_hold_raises_before_restoring_witness :
  _cancel_listeners second_day_at_0500 = [2; 3; 4; 5]
  ∧ listeners second_day_at_0500 !! 3
    = Some {| tracked := soc_watcher eco_0230_0500 (PyFloat (319 # 4));
              unsubscribed := 1 |}
  ∧ raises (_stop_hold calm eco_0230_0500) second_day_at_0500
  ∧ issued (_stop_hold calm eco_0230_0500) second_day_at_0500 = [].
Proof.
  assert (Hin : 3 ∈ _cancel_listeners second_day_at_0500)
    by (apply list_elem_of_further, list_elem_of_here).
  split; [reflexivity|]. split; [reflexivity|].
  exact (stop_hold_raises_before_restoring calm eco_0230_0500
           second_day_at_0500 3 _ Hin eq_refl eq_refl).
Defined.

Lemma stop_hold_aborts_without_clearing_witness :
  _cancel_listeners second_day_at_0500 = [2] ++ 3 :: [4; 5]
  ∧ liveness second_day_at_0500 = [true; true; false; false; true; true]
  ∧ _cancel_listeners
      (after (_stop_hold calm eco_0230_0500) second_day_at_0500)
    = [2; 3; 4; 5]
  ∧ raises (_stop_hold calm eco_0230_0500) second_day_at_0500
  ∧ listeners (after (_stop_hold calm eco_0230_0500) second_day_at_0500) !! 4
    = Some (fresh (start_trigger eco_0230_0500))
  ∧ listeners (after (_stop_hold calm eco_0230_0500) second_day_at_0500) !! 5
    = Some (fresh (soc_watcher eco_0230_0500 (PyFloat (319 # 4)))).
Proof.
  destruct (stop_hold_aborts_without_clearing calm eco_0230_0500
              second_day_at_0500 [2] [4; 5] 3 _ eq_refl eq_refl eq_refl)
    as (H1 & H2 & H3).
  split; [reflexivity|]. split; [reflexivity|]. split; [exact H1|].
  split; [exact H2|]. split.
  - rewrite H3; [reflexivity|].
    intros H. apply list_elem_of_singleton in H. discriminate H.
  - rewrite H3; [reflexivity|].
    intros H. apply list_elem_of_singleton in H. discriminate H.
Defined.


(** ** The further statements at concrete inputs *)

Lemma watched_level_is_floor_witness :
  (0 <= to_Q (charge_to_perc short_of_charge))%Q
  ∧ (0 <= py_int (charge_to_perc short_of_charge))%Z
  ∧ (inject_Z (py_int (charge_to_perc short_of_charge))
     <= to_Q (charge_to_perc short_of_charge))%Q.
Proof.
  assert (H : (0 <= to_Q (charge_to_perc short_of_charge))%Q)
    by (unfold Qle; cbn; lia).
  destruct (watched_level_is_floor (charge_to_perc short_of_charge) H)
    as (H1 & H2 & _).
  auto.
Defined.

Lemma daily_triggers_fire_witness :
  (5 <= minute (_eco_start_time eco_0230_0500))%Z
  ∧ Forall (fun e => e ≠ Unload) (repeat Tick 144)
  ∧ lifetime_live morning_0224
  ∧ ∃ rest,
      invoked (tick calm eco_0230_0500 morning_0224)
      = invoked morning_0224 ++ cb_set_target_soc :: rest.
Proof.
  assert (Hm : (5 <= minute (_eco_start_time eco_0230_0500))%Z)
    by (cbn; lia).
  assert (H : Forall (fun e => e ≠ Unload) (repeat Tick 144)).
  { apply List.Forall_forall. intros e He. apply repeat_spec in He.
    subst e. discriminate. }
  destruct (daily_triggers_fire calm eco_0230_0500 (repeat Tick 144) 0
              no_readings false false Hm H) as (H1 & H2 & _).
  split; [exact Hm|]. split; [exact H|]. split; [exact H1|].
  apply H2. split; reflexivity.
Defined.

Lemma charging_cycle_commands_witness :
  _cancel_listeners midnight = []
  ∧ forecast calm (refreshes midnight) = Some short_of_charge
  ∧ (∀ k, fox_fault calm k = false)
  ∧ fox_calls
      (fold_left (perform calm eco_0230_0500)
         [Call cb_set_target_soc; Call cb_start_force_charge;
          Call cb_stop_and_hold_charge; Call cb_stop_hold] midnight)
    = [start_force_charge; stop_force_charge;
       set_min_soc (PyFloat (319 # 4)); set_min_soc (PyInt 2000)].
Proof.
  assert (H : ∀ k, fox_fault calm k = false) by (intros k; reflexivity).
  split; [reflexivity|]. split; [reflexivity|]. split; [exact H|].
  exact (proj1 (charging_cycle_commands calm eco_0230_0500 midnight
                  short_of_charge eq_refl eq_refl H)).
Defined.

Lemma unstopped_charge_outlives_release_witness :
  _cancel_listeners midnight = []
  ∧ fox_calls after_one_day
    = [start_force_charge; set_min_soc (PyInt 2000)]
  ∧ _charge_active after_one_day = true.
Proof.
  destruct (unstopped_charge_outlives_release calm eco_0230_0500 midnight
              eq_refl) as (H1 & H2 & _).
  split; [reflexivity|]. split; [exact H1 | exact H2].
Defined.

Lemma idle_minute_only_advances_clock_witness :
  time_matches 1 (arm_trigger eco_0230_0500) = false
  ∧ time_matches 1 (release_trigger eco_0230_0500) = false
  ∧ time_matches 1 (start_trigger eco_0230_0500) = false
  ∧ tick calm eco_0230_0500 midnight = with_now 1 midnight.
Proof.
  split; [reflexivity|]. split; [reflexivity|]. split; [reflexivity|].
  exact (idle_minute_only_advances_clock calm eco_0230_0500 [] 0 no_readings
           false false eq_refl eq_refl eq_refl).
Defined.
